(** * WokTalk: the recipe playback core

    A shallow embedding of the playback store ([store/recipeStore]), the
    voice command matcher and dispatcher ([components/VoiceControl.tsx]),
    the timestamp parser and loop monitor of the YouTube player component,
    and the timer wiring of the cook-mode screen, followed by the
    properties established about them. Around this core the development
    also covers the clock text and buttons of the cook screen, whole
    sessions of store actions, the loading of a recipe into the store, the
    prep check list and the reading of a video id from the URL field. *)

From Equations Require Import Equations.
From Stdlib Require Import ZArith NArith List Bool Lia String Ascii.
Import ListNotations.

Local Open Scope Z_scope.

(* ===================================================================== *)
(** * Host language values *)
(* ===================================================================== *)

Module JS.

(** A JavaScript string is a sequence of UTF-16 code units. *)
Definition jsstring := list N.

(** ASCII literals of the source, as code units. *)
Definition str (s : string) : jsstring :=
  List.map N_of_ascii (list_ascii_of_string s).

(** A JavaScript number, restricted to the values the playback core
    manipulates: the integers and [NaN], which [Number] yields on text
    that is not numeric. The host computes in double precision: it agrees
    with the exact integer arithmetic below as long as the operands and
    the result stay within [MAX_SAFE_INTEGER] in magnitude, and statements
    that depend on the value of a sum or product carry that bound.
    Fractional values are outside the embedding. *)
Inductive number : Type :=
| Num (z : Z)
| NaN.

(** [Number.MAX_SAFE_INTEGER], 2^53 - 1. *)
Definition MAX_SAFE_INTEGER : Z := 9007199254740991.

Definition mul (a b : number) : number :=
  match a, b with
  | Num x, Num y => Num (x * y)
  | _, _ => NaN
  end.

Definition add (a b : number) : number :=
  match a, b with
  | Num x, Num y => Num (x + y)
  | _, _ => NaN
  end.

(** [a > b], [a >= b]: false as soon as one side is [NaN]. *)
Definition gt (a b : number) : bool :=
  match a, b with
  | Num x, Num y => y <? x
  | _, _ => false
  end.

Definition ge (a b : number) : bool :=
  match a, b with
  | Num x, Num y => y <=? x
  | _, _ => false
  end.

(** Truthiness of a number: [0] and [NaN] are falsy. *)
Definition truthy (a : number) : bool :=
  match a with
  | Num x => negb (x =? 0)
  | NaN => false
  end.

(** ** String primitives *)

(** [String.prototype.toLowerCase], on the repertoire of [plainText]: the
    ASCII letters are mapped and every other code unit is left as it is.
    The host also maps cased letters outside ASCII (Latin-1, Greek, the
    Kelvin sign, ...); text that contains such units is outside the
    embedding, and statements that depend on the case mapping of arbitrary
    text are made for [plainText]. *)
Definition lowerUnit (c : N) : N :=
  if ((65 <=? c) && (c <=? 90))%N then (c + 32)%N else c.

Definition toLowerCase (s : jsstring) : jsstring := List.map lowerUnit s.

(** The code units whose case mapping in the host is [lowerUnit]: ASCII,
    and the CJK unified ideographs U+4E00 to U+9FFF, which have no case. *)
Definition plainUnit (c : N) : bool :=
  ((c <? 128) || (19968 <=? c) && (c <=? 40959))%N.

Definition plainText (s : jsstring) : Prop :=
  List.Forall (fun c => plainUnit c = true) s.

(** White space and line terminators, as [trim] strips them. *)
Definition isWhiteSpace (c : N) : bool :=
  ((9 <=? c) && (c <=? 13) || (c =? 32) || (c =? 160) || (c =? 5760)
   || (8192 <=? c) && (c <=? 8202) || (c =? 8232) || (c =? 8233)
   || (c =? 8239) || (c =? 8287) || (c =? 12288) || (c =? 65279))%N.

(** Every code unit of [s] is white space. *)
Definition allWhite (s : jsstring) : Prop :=
  List.Forall (fun c => isWhiteSpace c = true) s.

Fixpoint trimStart (s : jsstring) : jsstring :=
  match s with
  | [] => []
  | c :: r => if isWhiteSpace c then trimStart r else s
  end.

Definition trimEnd (s : jsstring) : jsstring :=
  List.rev (trimStart (List.rev s)).

Definition trim (s : jsstring) : jsstring := trimEnd (trimStart s).

(** [s.startsWith(p)] *)
Fixpoint startsWith (s p : jsstring) : bool :=
  match p, s with
  | [], _ => true
  | _ :: _, [] => false
  | a :: p', b :: s' => (a =? b)%N && startsWith s' p'
  end.

(** [s.includes(p)]: [p] occurs in [s] as a contiguous run of code
    units. *)
Fixpoint includes (s p : jsstring) : bool :=
  startsWith s p ||
  match s with
  | [] => false
  | _ :: s' => includes s' p
  end.

(** [s.split(sep)] for a one-unit separator: always at least one part. *)
Fixpoint split (sep : N) (s : jsstring) : list jsstring :=
  match s with
  | [] => [[]]
  | c :: r =>
      if (c =? sep)%N then [] :: split sep r
      else match split sep r with
           | p :: ps => (c :: p) :: ps
           | [] => [[c]]
           end
  end.

(** ** [Number(text)] *)

Definition isDigit (c : N) : bool := ((48 <=? c) && (c <=? 57))%N.

(** Every code unit of [s] is a decimal digit. *)
Definition allDigits (s : jsstring) : Prop :=
  List.Forall (fun c => isDigit c = true) s.

(** Reads a run of decimal digits left to right; [None] on any other
    code unit. *)
Fixpoint readDigits (acc : Z) (s : jsstring) : option Z :=
  match s with
  | [] => Some acc
  | c :: r =>
      if isDigit c then readDigits (10 * acc + Z.of_N (c - 48)) r
      else None
  end.

Definition readUnsigned (s : jsstring) : number :=
  match s with
  | [] => NaN
  | _ :: _ => match readDigits 0 s with
              | Some z => Num z
              | None => NaN
              end
  end.

Definition negate (a : number) : number :=
  match a with
  | Num z => Num (- z)
  | NaN => NaN
  end.

(** [Number] on a string: surrounding white space is dropped, the empty
    string is [0], an optionally signed run of decimal digits is its
    value. Literals with a fraction, an exponent, a radix prefix, and
    [Infinity], denote values outside [number]; they are not used by
    timestamps and are sent to [NaN] here. *)
Definition Number (s : jsstring) : number :=
  match trim s with
  | [] => Num 0
  | c :: r =>
      if (c =? 43)%N then readUnsigned r
      else if (c =? 45)%N then negate (readUnsigned r)
      else readUnsigned (c :: r)
  end.

End JS.

(* ===================================================================== *)
(** * constants/i18n *)
(* ===================================================================== *)

Module I18n.
Import JS.

Inductive Language : Type := en | hk.

(** The keys of [COMMAND_PATTERNS]. *)
Inductive Command : Type :=
| CmdNext | CmdPrev | CmdRepeat | CmdTimer | CmdStop.

(** [Object.entries(COMMAND_PATTERNS)]: the entries in insertion order,
    each with its phrases in array order. Non-ASCII phrases are given by
    their code units. *)
Definition COMMAND_PATTERNS : list (Command * list jsstring) :=
  [ (CmdNext,
     [ [19979; 19968; 27493]%N;
       [19979; 19968; 20010]%N;
       [32380; 32396]%N;
       [32487; 32493]%N;
       str "next";
       str "continue" ]);
    (CmdPrev,
     [ [19978; 19968; 27493]%N;
       [36820; 22238]%N;
       [21069; 19968; 27493]%N;
       str "previous";
       str "back" ]);
    (CmdRepeat,
     [ [37325; 35079]%N;
       [37325; 22797]%N;
       [20877; 35611]%N;
       [20877; 35828]%N;
       str "repeat";
       str "again" ]);
    (CmdTimer,
     [ [35336; 26178]%N;
       [35745; 26102]%N;
       [38283; 22987; 35336; 26178]%N;
       str "timer";
       str "start timer" ]);
    (CmdStop,
     [ [20572; 27490]%N;
       [26283; 20572]%N;
       [20572]%N;
       str "stop";
       str "pause" ]) ].

(** [MESSAGES[language][command]] for the five command keys. *)
Definition MESSAGES (l : Language) (c : Command) : jsstring :=
  match l, c with
  | en, CmdNext => str "Next"
  | en, CmdPrev => str "Previous"
  | en, CmdRepeat => str "Repeat"
  | en, CmdTimer => str "Timer"
  | en, CmdStop => str "Stop"
  | hk, CmdNext => [19979; 19968; 27493]%N
  | hk, CmdPrev => [19978; 19968; 27493]%N
  | hk, CmdRepeat => [37325; 35079]%N
  | hk, CmdTimer => [35336; 26178]%N
  | hk, CmdStop => [20572; 27490]%N
  end.

End I18n.

(* ===================================================================== *)
(** * store/recipeStore *)
(* ===================================================================== *)

Module RecipeStore.
Import JS I18n.

Record TimerConfig : Type := {
  has_timer : bool;
  duration_seconds : option Z;
  visual_cue : option jsstring
}.

Record RecipeStep : Type := {
  step_id : Z;
  timestamp_start : jsstring;
  timestamp_end : jsstring;
  instruction_en : jsstring;
  instruction_hk : jsstring;
  timer_config : TimerConfig
}.

(** The parts of a recipe document the playback core reads. *)
Record Recipe : Type := {
  youtube_id : jsstring;
  steps : list RecipeStep
}.

Inductive Mode : Type := ingredients | prep | cook.

(** The data fields of the store. *)
Record RecipeState : Type := mkState {
  currentRecipe : option Recipe;
  isLoading : bool;
  error : option jsstring;
  currentStepIndex : Z;
  mode : Mode;
  isTimerRunning : bool;
  timerSeconds : Z;
  showExplainability : bool;
  isListening : bool;
  expertMode : bool;
  language : Language
}.

Definition initialState (lang : Language) : RecipeState :=
  {| currentRecipe := None;
     isLoading := false;
     error := None;
     currentStepIndex := 0;
     mode := ingredients;
     isTimerRunning := false;
     timerSeconds := 0;
     showExplainability := false;
     isListening := false;
     expertMode := false;
     language := lang |}.

(** ** Partial updates, as [set({ ... })] merges them *)

Definition set_currentRecipe (v : option Recipe) (s : RecipeState) :=
  mkState v (isLoading s) (error s) (currentStepIndex s) (mode s)
          (isTimerRunning s) (timerSeconds s) (showExplainability s)
          (isListening s) (expertMode s) (language s).

Definition set_error (v : option jsstring) (s : RecipeState) :=
  mkState (currentRecipe s) (isLoading s) v (currentStepIndex s) (mode s)
          (isTimerRunning s) (timerSeconds s) (showExplainability s)
          (isListening s) (expertMode s) (language s).

Definition set_currentStepIndex (v : Z) (s : RecipeState) :=
  mkState (currentRecipe s) (isLoading s) (error s) v (mode s)
          (isTimerRunning s) (timerSeconds s) (showExplainability s)
          (isListening s) (expertMode s) (language s).

Definition set_mode (v : Mode) (s : RecipeState) :=
  mkState (currentRecipe s) (isLoading s) (error s) (currentStepIndex s) v
          (isTimerRunning s) (timerSeconds s) (showExplainability s)
          (isListening s) (expertMode s) (language s).

Definition set_isTimerRunning (v : bool) (s : RecipeState) :=
  mkState (currentRecipe s) (isLoading s) (error s) (currentStepIndex s)
          (mode s) v (timerSeconds s) (showExplainability s)
          (isListening s) (expertMode s) (language s).

Definition set_timerSeconds (v : Z) (s : RecipeState) :=
  mkState (currentRecipe s) (isLoading s) (error s) (currentStepIndex s)
          (mode s) (isTimerRunning s) v (showExplainability s)
          (isListening s) (expertMode s) (language s).

Definition set_showExplainability (v : bool) (s : RecipeState) :=
  mkState (currentRecipe s) (isLoading s) (error s) (currentStepIndex s)
          (mode s) (isTimerRunning s) (timerSeconds s) v
          (isListening s) (expertMode s) (language s).

Definition set_isListening (v : bool) (s : RecipeState) :=
  mkState (currentRecipe s) (isLoading s) (error s) (currentStepIndex s)
          (mode s) (isTimerRunning s) (timerSeconds s)
          (showExplainability s) v (expertMode s) (language s).

Definition set_expertMode (v : bool) (s : RecipeState) :=
  mkState (currentRecipe s) (isLoading s) (error s) (currentStepIndex s)
          (mode s) (isTimerRunning s) (timerSeconds s)
          (showExplainability s) (isListening s) v (language s).

Definition set_language (v : Language) (s : RecipeState) :=
  mkState (currentRecipe s) (isLoading s) (error s) (currentStepIndex s)
          (mode s) (isTimerRunning s) (timerSeconds s)
          (showExplainability s) (isListening s) (expertMode s) v.

(** [recipe.steps.length] *)
Definition stepCount (r : Recipe) : Z := Z.of_nat (List.length (steps r)).

(** ** Recipe actions *)

Definition setRecipe (recipe : Recipe) (s : RecipeState) : RecipeState :=
  set_error None (set_currentStepIndex 0 (set_currentRecipe (Some recipe) s)).

Definition clearRecipe (s : RecipeState) : RecipeState :=
  set_currentStepIndex 0 (set_currentRecipe None s).

Definition setMode (m : Mode) (s : RecipeState) : RecipeState :=
  set_mode m s.

(** ** Step navigation *)

Definition nextStep (s : RecipeState) : RecipeState :=
  match currentRecipe s with
  | Some r =>
      if currentStepIndex s <? stepCount r - 1
      then set_currentStepIndex (currentStepIndex s + 1) s
      else s
  | None => s
  end.

Definition prevStep (s : RecipeState) : RecipeState :=
  if 0 <? currentStepIndex s
  then set_currentStepIndex (currentStepIndex s - 1) s
  else s.

Definition goToStep (index : Z) (s : RecipeState) : RecipeState :=
  match currentRecipe s with
  | Some r =>
      if (0 <=? index) && (index <? stepCount r)
      then set_currentStepIndex index s
      else s
  | None => s
  end.

(** ** Timer actions *)

(** What is handed to [window.speechSynthesis.speak]. *)
Record Utterance : Type := {
  text : jsstring;
  lang : jsstring
}.

Definition startTimer (seconds : Z) (s : RecipeState) : RecipeState :=
  set_isTimerRunning true (set_timerSeconds seconds s).

Definition stopTimer (s : RecipeState) : RecipeState :=
  set_isTimerRunning false s.

(** [s'] agrees with [s] on every field other than [isTimerRunning] and
    [timerSeconds]. *)
Definition sameOutsideTimer (s s' : RecipeState) : Prop :=
  currentRecipe s' = currentRecipe s /\
  isLoading s' = isLoading s /\
  error s' = error s /\
  currentStepIndex s' = currentStepIndex s /\
  mode s' = mode s /\
  showExplainability s' = showExplainability s /\
  isListening s' = isListening s /\
  expertMode s' = expertMode s /\
  language s' = language s.

Definition timesUp : Utterance :=
  {| text := [26178; 38291; 21040; 21862; 65281]%N; lang := str "zh-HK" |}.

(** [tickTimer]: the new state and the utterances spoken by the call.
    [speech] tells whether the host has [window.speechSynthesis]. *)
Definition tickTimer (speech : bool) (s : RecipeState)
  : RecipeState * list Utterance :=
  if isTimerRunning s && (0 <? timerSeconds s) then
    (set_timerSeconds (timerSeconds s - 1) s, [])
  else if isTimerRunning s && (timerSeconds s =? 0) then
    (set_isTimerRunning false s, if speech then [timesUp] else [])
  else (s, []).

(** ** UI toggles *)

Definition toggleExplainability (s : RecipeState) : RecipeState :=
  set_showExplainability (negb (showExplainability s)) s.

Definition setListening (listening : bool) (s : RecipeState) : RecipeState :=
  set_isListening listening s.

Definition toggleExpertMode (s : RecipeState) : RecipeState :=
  set_expertMode (negb (expertMode s)) s.

Definition setLanguage (l : Language) (s : RecipeState) : RecipeState :=
  set_language l s.

End RecipeStore.

(* ===================================================================== *)
(** * components/YouTubePlayer *)
(* ===================================================================== *)

Module YouTubePlayer.
Import JS.

Definition colon : N := 58%N.

(** Convert "MM:SS" (or "HH:MM:SS") to seconds. *)
Definition parseTimestamp (timestamp : jsstring) : number :=
  match List.map Number (split colon timestamp) with
  | [p0; p1] => add (mul p0 (Num 60)) p1
  | [p0; p1; p2] => add (add (mul p0 (Num 3600)) (mul p1 (Num 60))) p2
  | _ => Num 0
  end.

(** [t ? parseTimestamp(t) : 0] for an optional prop: an absent or empty
    string is falsy. *)
Definition secondsOf (t : option jsstring) : number :=
  match t with
  | Some (c :: r) => parseTimestamp (c :: r)
  | _ => Num 0
  end.

(** The calls the component makes on the player handle. *)
Inductive PlayerCmd : Type :=
| SeekTo (seconds : number) (allowSeekAhead : bool)
| PlayVideo.

Inductive PlayerState : Type :=
| ENDED | PLAYING | PAUSED | OtherState (code : Z).

(** [onStateChange]: the player calls issued for one state event.
    [hasPlayer] is [playerRef.current] being set. *)
Definition onStateChange (autoLoop : bool) (startSeconds : number)
           (hasPlayer : bool) (data : PlayerState) : list PlayerCmd :=
  match data with
  | ENDED =>
      if autoLoop && gt startSeconds (Num 0)
      then if hasPlayer then [SeekTo startSeconds true; PlayVideo] else []
      else []
  | _ => []
  end.

(** [replay()] of the imperative handle. *)
Definition replay (startSeconds : number) (hasPlayer : bool)
  : list PlayerCmd :=
  if hasPlayer then [SeekTo startSeconds true; PlayVideo] else [].

(** Guard of the loop-monitoring effect: the interval is scheduled only
    when it holds. *)
Definition loopMonitorEnabled (autoLoop : bool) (endSeconds : number)
           (hasPlayer : bool) : bool :=
  autoLoop && truthy endSeconds && hasPlayer.

(** Outcome of sampling the player on one firing of the interval. *)
Inductive Sample : Type :=
| Position (currentTime : number)
| Throws
| NoPlayer.

(** Body of the interval callback. *)
Definition pollTick (startSeconds endSeconds : number) (sample : Sample)
  : list PlayerCmd :=
  match sample with
  | Position currentTime =>
      if ge currentTime endSeconds then [SeekTo startSeconds true] else []
  | Throws => []
  | NoPlayer => []
  end.

(** The player calls issued on successive firings of the interval, one
    entry per firing. *)
Definition loopMonitor (autoLoop : bool) (startSeconds endSeconds : number)
           (hasPlayer : bool) (samples : list Sample)
  : list (list PlayerCmd) :=
  if loopMonitorEnabled autoLoop endSeconds hasPlayer
  then List.map (pollTick startSeconds endSeconds) samples
  else [].

(** The sample is a position at or past the end of the window. *)
Definition atOrPastEnd (endSeconds : number) (sample : Sample) : bool :=
  match sample with
  | Position currentTime => ge currentTime endSeconds
  | Throws => false
  | NoPlayer => false
  end.

Definition isSeek (c : PlayerCmd) : bool :=
  match c with
  | SeekTo _ _ => true
  | PlayVideo => false
  end.

(** Number of seek calls in a trace of firings. *)
Definition seekCount (trace : list (list PlayerCmd)) : nat :=
  List.length (List.filter isSeek (List.concat trace)).

End YouTubePlayer.

(* ===================================================================== *)
(** * components/VoiceControl *)
(* ===================================================================== *)

Module VoiceControl.
Import JS I18n RecipeStore.

(** Inner loop of [matchCommand]: does some phrase of the entry occur in
    the normalized transcript? *)
Fixpoint matchPatterns (normalized : jsstring) (patterns : list jsstring)
  : bool :=
  match patterns with
  | [] => false
  | pattern :: rest =>
      if includes normalized (toLowerCase pattern) then true
      else matchPatterns normalized rest
  end.

(** Outer loop: the first entry with a matching phrase is returned. *)
Fixpoint matchEntries (normalized : jsstring)
         (entries : list (Command * list jsstring)) : option Command :=
  match entries with
  | [] => None
  | (command, patterns) :: rest =>
      if matchPatterns normalized patterns then Some command
      else matchEntries normalized rest
  end.

Definition normalize (transcript : jsstring) : jsstring :=
  trim (toLowerCase transcript).

(** Some phrase of the entry, lower-cased, occurs in [normalized] as a
    contiguous run of code units. *)
Definition phraseOccurs (normalized : jsstring) (patterns : list jsstring)
  : Prop :=
  exists p a b, In p patterns /\ normalized = a ++ toLowerCase p ++ b.

Definition matchCommandIn (table : list (Command * list jsstring))
           (transcript : jsstring) : option Command :=
  matchEntries (normalize transcript) table.

Definition matchCommand (transcript : jsstring) : option Command :=
  matchCommandIn COMMAND_PATTERNS transcript.

(** [speakFeedback]; the utterance rate is not modelled. *)
Definition speakFeedback (speech : bool) (l : Language) (t : jsstring)
  : list Utterance :=
  if speech
  then [ {| text := t;
            lang := match l with hk => str "zh-HK" | en => str "en-US" end |} ]
  else [].

(** [handleCommand]. [onCommand] is the optional callback prop, a further
    action on the store when the parent supplies one. *)
Definition handleCommand (speech : bool)
           (onCommand : option (Command -> RecipeState -> RecipeState))
           (command : Command) (s : RecipeState)
  : RecipeState * list Utterance :=
  let feedback := speakFeedback speech (language s)
                                (MESSAGES (language s) command) in
  let s1 := match command with
            | CmdNext => nextStep s
            | CmdPrev => prevStep s
            | CmdRepeat => s
            | CmdTimer => s
            | CmdStop => s
            end in
  (match onCommand with
   | Some k => k command s1
   | None => s1
   end, feedback).

(** The synchronous part of [recognition.onresult] on a final result. The
    handler also schedules [resultTimeout], below, one second later. *)
Definition onFinalResult (speech : bool)
           (onCommand : option (Command -> RecipeState -> RecipeState))
           (transcript : jsstring) (s : RecipeState)
  : RecipeState * list Utterance :=
  match matchCommand transcript with
  | Some command => handleCommand speech onCommand command s
  | None => (s, [])
  end.

(** The callback that [recognition.onresult] sets with [setTimeout] on
    every final result, matched or not: it clears the transcript shown by
    the component and calls [setListening(false)]. *)
Definition resultTimeout (s : RecipeState) : RecipeState :=
  setListening false s.

(** [recognition.onend] and the store part of [recognition.onerror]. *)
Definition onend (s : RecipeState) : RecipeState := setListening false s.

Definition onerror (s : RecipeState) : RecipeState := setListening false s.

(** A final result with its timeout: the store once the scheduled callback
    has run, no other event coming in between, and what was spoken. *)
Definition finalResultSettled (speech : bool)
           (onCommand : option (Command -> RecipeState -> RecipeState))
           (transcript : jsstring) (s : RecipeState)
  : RecipeState * list Utterance :=
  let '(s1, out) := onFinalResult speech onCommand transcript s in
  (resultTimeout s1, out).

End VoiceControl.

(* ===================================================================== *)
(** * components/CookMode *)
(* ===================================================================== *)

Module CookMode.
Import JS I18n RecipeStore.

(** [currentRecipe.steps[currentStepIndex]] *)
Definition currentStep (s : RecipeState) : option RecipeStep :=
  match currentRecipe s with
  | Some r =>
      if 0 <=? currentStepIndex s
      then List.nth_error (steps r) (Z.to_nat (currentStepIndex s))
      else None
  | None => None
  end.

(** [d || dflt] on an optional number. *)
Definition orDefault (d : option Z) (dflt : Z) : Z :=
  match d with
  | Some z => if z =? 0 then dflt else z
  | None => dflt
  end.

(** The start button of the timer card, shown when the step has a timer
    and none is running. *)
Definition onStartTimerClick (s : RecipeState) : RecipeState :=
  match currentStep s with
  | Some st =>
      if has_timer (timer_config st) && negb (isTimerRunning s)
      then startTimer (orDefault (duration_seconds (timer_config st)) 60) s
      else s
  | None => s
  end.

(** The stop button, shown while a timer is running. *)
Definition onStopTimerClick (s : RecipeState) : RecipeState :=
  match currentStep s with
  | Some st =>
      if has_timer (timer_config st) && isTimerRunning s
      then stopTimer s
      else s
  | None => s
  end.

(** [<VoiceControl />] is rendered without an [onCommand] prop. *)
Definition voiceOnCommand
  : option (Command -> RecipeState -> RecipeState) := None.

Definition dispatchVoice (speech : bool) (command : Command)
           (s : RecipeState) : RecipeState * list Utterance :=
  VoiceControl.handleCommand speech voiceOnCommand command s.

(** [n] successive calls of [tickTimer], with everything spoken on the
    way, oldest first. *)
Fixpoint ticks (speech : bool) (n : nat) (s : RecipeState)
  : RecipeState * list Utterance :=
  match n with
  | O => (s, [])
  | S n' =>
      let '(s1, out1) := tickTimer speech s in
      let '(s2, out2) := ticks speech n' s1 in
      (s2, out1 ++ out2)
  end.

End CookMode.

(* ===================================================================== *)
(** * Navigation scripts *)
(* ===================================================================== *)

Module Nav.
Import RecipeStore.

Inductive Call : Type := CallNext | CallPrev.

Definition run (s : RecipeState) (c : Call) : RecipeState :=
  match c with
  | CallNext => nextStep s
  | CallPrev => prevStep s
  end.

Definition runAll (calls : list Call) (s : RecipeState) : RecipeState :=
  List.fold_left run calls s.

(** The store holds recipe [r] and points at one of its steps. *)
Definition inRange (r : Recipe) (s : RecipeState) : Prop :=
  currentRecipe s = Some r /\ 0 <= currentStepIndex s <= stepCount r - 1.

End Nav.

(* ===================================================================== *)
(** * Timestamp text and sample data *)
(* ===================================================================== *)

Module Timestamp.
Import JS.

(** The decimal numeral of a natural number, most significant digit
    first, without leading zeros. *)
Definition inspect {A : Type} (a : A) : {b : A | a = b} :=
  exist _ a eq_refl.

Equations? decimal (n : N) : jsstring by wf (N.to_nat n) lt :=
  decimal n with inspect (N.ltb n 10) => {
    | exist _ true _ := [(48 + n)%N];
    | exist _ false _ := decimal (n / 10) ++ [(48 + n mod 10)%N] }.
Proof.
  assert (Hge : (10 <= n)%N) by (apply N.ltb_ge; assumption).
  assert (Hlt : (n / 10 < n)%N) by (apply N.div_lt; lia).
  lia.
Qed.

(** A timestamp field: the numeral of [n] behind [pad] leading zeros. *)
Definition field (pad : nat) (n : N) : jsstring :=
  List.repeat 48%N pad ++ decimal n.

Definition mmss (m s : jsstring) : jsstring :=
  m ++ [58%N] ++ s.

Definition hhmmss (h m s : jsstring) : jsstring :=
  h ++ [58%N] ++ m ++ [58%N] ++ s.

End Timestamp.

Module Samples.
Import JS I18n RecipeStore.

Definition plainStep (id : Z) (t0 t1 : string) : RecipeStep :=
  {| step_id := id;
     timestamp_start := str t0;
     timestamp_end := str t1;
     instruction_en := str "Stir";
     instruction_hk := [28810]%N;
     timer_config := {| has_timer := false;
                        duration_seconds := None;
                        visual_cue := None |} |}.

Definition timedStep (id : Z) (t0 t1 : string) (d : option Z) : RecipeStep :=
  {| step_id := id;
     timestamp_start := str t0;
     timestamp_end := str t1;
     instruction_en := str "Simmer";
     instruction_hk := [29014]%N;
     timer_config := {| has_timer := true;
                        duration_seconds := d;
                        visual_cue := None |} |}.

(** A three-step recipe whose first step has a 30 second timer and whose
    last step has a timer without a duration. *)
Definition recipe3 : Recipe :=
  {| youtube_id := str "abc123";
     steps := [ timedStep 1 "0:10" "0:20" (Some 30);
                plainStep 2 "0:20" "1:05";
                timedStep 3 "1:05" "1:02:03" None ] |}.

Definition loaded : RecipeState := setRecipe recipe3 (initialState en).

(** A session in which a timer is counting down and the microphone is
    open. *)
Definition busy : RecipeState :=
  setListening true (startTimer 45 (nextStep loaded)).

Definition script : list Nav.Call :=
  [Nav.CallPrev; Nav.CallNext; Nav.CallNext; Nav.CallNext; Nav.CallNext;
   Nav.CallPrev].

(** The spec's small phrase table. *)
Definition smallTable : list (Command * list jsstring) :=
  [ (CmdNext, [str "next"; [19979; 19968; 27493]%N]);
    (CmdPrev, [str "back"]) ].

Definition reports : list YouTubePlayer.Sample :=
  List.map (fun z => YouTubePlayer.Position (Num z)) [5; 12; 19; 20; 21].

End Samples.

(* ===================================================================== *)
(** * The cook screen: clock text, buttons, player set-up *)
(* ===================================================================== *)

Module Clock.
Import JS Timestamp.

(** [z.toString()] for an integer of magnitude below 10^21, where the
    host prints plain decimal digits (from 10^21 on it prints an exponent
    form, which is outside the embedding). *)
Definition toString (z : Z) : jsstring :=
  if z <? 0 then 45%N :: decimal (Z.to_N (- z)) else decimal (Z.to_N z).

(** [s.padStart(len, fill)] for a one-unit fill string. *)
Definition padStart (len : nat) (fill : N) (s : jsstring) : jsstring :=
  List.repeat fill (len - List.length s) ++ s.

(** [formatTime] of the cook screen: [Math.floor(seconds / 60)] is the
    floor quotient and [seconds % 60] the remainder with the sign of
    [seconds]. The host divides in double precision; for an integer
    [seconds] within [MAX_SAFE_INTEGER] the floor of its quotient is the
    exact one (the quotient is below 2^48, where doubles lie 1/32 apart,
    and its fractional part is at most 59/60), and statements about the
    text are made within that bound. *)
Definition formatTime (seconds : Z) : jsstring :=
  let mins := seconds / 60 in
  let secs := Z.rem seconds 60 in
  padStart 2 48%N (toString mins) ++ [58%N] ++ padStart 2 48%N (toString secs).

End Clock.

Module CookView.
Import JS I18n RecipeStore.

(** [isFirstStep], [isLastStep]: they disable the previous and the next
    button. *)
Definition isFirstStep (s : RecipeState) : bool :=
  currentStepIndex s =? 0.

Definition isLastStep (r : Recipe) (s : RecipeState) : bool :=
  currentStepIndex s =? stepCount r - 1.

(** The text of the timer card for step [st]. *)
Definition timerDisplay (st : RecipeStep) (s : RecipeState) : jsstring :=
  if isTimerRunning s
  then Clock.formatTime (timerSeconds s)
  else Clock.formatTime
         (CookMode.orDefault (duration_seconds (timer_config st)) 0).

(** The step dots: one [goToStep(index)] button per step. *)
Definition onDotClick (index : nat) (s : RecipeState) : RecipeState :=
  match currentRecipe s with
  | Some r =>
      if (index <? List.length (steps r))%nat
      then goToStep (Z.of_nat index) s
      else s
  | None => s
  end.

End CookView.

Module PlayerSetup.
Import JS YouTubePlayer.

(** The [start] and [end] entries of [playerVars]: [end] is passed only
    when [endSeconds > 0]. *)
Record PlayerVars : Type := {
  varStart : number;
  varEnd : option number
}.

Definition playerVars (startSeconds endSeconds : number) : PlayerVars :=
  {| varStart := startSeconds;
     varEnd := if gt endSeconds (Num 0) then Some endSeconds else None |}.

(** The player calls of the [onReady] event. *)
Definition onReady (startSeconds : number) : list PlayerCmd :=
  if gt startSeconds (Num 0) then [SeekTo startSeconds true] else [].

End PlayerSetup.

(* ===================================================================== *)
(** * Sessions: every action of the store *)
(* ===================================================================== *)

Module Session.
Import JS I18n RecipeStore.

(** The actions of the store, called with integer arguments: [goToStep]
    with a whole index and [startTimer] with a whole number of seconds.
    The store takes any number; calls with a fractional index or duration
    are outside the embedding. *)
Inductive Action : Type :=
| ASetRecipe (recipe : Recipe)
| AClearRecipe
| ASetMode (m : Mode)
| ANextStep
| APrevStep
| AGoToStep (index : Z)
| AStartTimer (seconds : Z)
| AStopTimer
| ATickTimer
| AToggleExplainability
| ASetListening (listening : bool)
| AToggleExpertMode
| ASetLanguage (l : Language).

Definition apply (speech : bool) (a : Action) (s : RecipeState)
  : RecipeState * list Utterance :=
  match a with
  | ASetRecipe recipe => (setRecipe recipe s, [])
  | AClearRecipe => (clearRecipe s, [])
  | ASetMode m => (setMode m s, [])
  | ANextStep => (nextStep s, [])
  | APrevStep => (prevStep s, [])
  | AGoToStep index => (goToStep index s, [])
  | AStartTimer seconds => (startTimer seconds s, [])
  | AStopTimer => (stopTimer s, [])
  | ATickTimer => tickTimer speech s
  | AToggleExplainability => (toggleExplainability s, [])
  | ASetListening listening => (setListening listening s, [])
  | AToggleExpertMode => (toggleExpertMode s, [])
  | ASetLanguage l => (setLanguage l s, [])
  end.

(** A script of actions, run in order; the utterances are collected oldest
    first. *)
Fixpoint run (speech : bool) (actions : list Action) (s : RecipeState)
  : RecipeState * list Utterance :=
  match actions with
  | [] => (s, [])
  | a :: rest =>
      let '(s1, out1) := apply speech a s in
      let '(s2, out2) := run speech rest s1 in
      (s2, out1 ++ out2)
  end.

(** The index is 0 when no recipe (or a recipe without steps) is loaded,
    and the index of a step of the loaded recipe otherwise. *)
Definition wellPositioned (s : RecipeState) : Prop :=
  match currentRecipe s with
  | Some r => 0 <= currentStepIndex s < Z.max 1 (stepCount r)
  | None => currentStepIndex s = 0
  end.

(** Every timer started by the script gets a duration that is not
    negative. *)
Definition startsNonNegative (actions : list Action) : Prop :=
  List.Forall (fun a => match a with
                        | AStartTimer seconds => 0 <= seconds
                        | _ => True
                        end) actions.

(** What [partialize] hands to the storage middleware. *)
Definition partialize (s : RecipeState) : bool * Language :=
  (expertMode s, language s).

(** The two actions of the settings panel. *)
Definition isSettingsAction (a : Action) : bool :=
  match a with
  | AToggleExpertMode => true
  | ASetLanguage _ => true
  | _ => false
  end.

End Session.

(* ===================================================================== *)
(** * app/recipe: loading a recipe into the store *)
(* ===================================================================== *)

Module RecipeClient.
Import JS RecipeStore.

Fixpoint unitsEqb (a b : jsstring) : bool :=
  match a, b with
  | [], [] => true
  | x :: a', y :: b' => (x =? y)%N && unitsEqb a' b'
  | _, _ => false
  end.

(** How the requests of [fetchRecipe] end: with a recipe document, or
    with a thrown error and its message. *)
Inductive FetchOutcome : Type :=
| Loaded (data : Recipe)
| Failed (message : jsstring).

(** [fetchRecipe], given the outcome of its requests: the new store and the
    error text the component shows, if any. Nothing is fetched when the
    loaded recipe already has the requested id. *)
Definition fetchRecipe (videoId : jsstring) (outcome : FetchOutcome)
           (s : RecipeState) : RecipeState * option jsstring :=
  let fetched :=
    match outcome with
    | Loaded data => (setRecipe data s, None)
    | Failed message => (s, Some message)
    end in
  match currentRecipe s with
  | Some r => if unitsEqb (youtube_id r) videoId then (s, None) else fetched
  | None => fetched
  end.

End RecipeClient.

(* ===================================================================== *)
(** * components/PrepStepsMode: the task check list *)
(* ===================================================================== *)

Module PrepSteps.

(** [completedTasks : Record<number, boolean>]: the own keys of the object
    with their values, each key once. *)
Definition Completed := list (nat * bool).

Fixpoint lookup (m : Completed) (index : nat) : option bool :=
  match m with
  | [] => None
  | (k, v) :: rest => if Nat.eqb k index then Some v else lookup rest index
  end.

(** [completedTasks[index]] used as a condition: an absent key is falsy. *)
Definition isDone (m : Completed) (index : nat) : bool :=
  match lookup m index with
  | Some v => v
  | None => false
  end.

(** [{ ...prev, [index]: v }] *)
Fixpoint assign (m : Completed) (index : nat) (v : bool) : Completed :=
  match m with
  | [] => [(index, v)]
  | (k, w) :: rest =>
      if Nat.eqb k index then (k, v) :: rest
      else (k, w) :: assign rest index v
  end.

Definition toggleTask (index : nat) (m : Completed) : Completed :=
  assign m index (negb (isDone m index)).

(** [prep_tasks.every((_, i) => completedTasks[i])] for [tasks] tasks. *)
Definition allDone (tasks : nat) (m : Completed) : bool :=
  List.forallb (isDone m) (List.seq 0 tasks).

(** [Object.keys(completedTasks).length], the first number of the footer's
    "ready" label. *)
Definition readyCount (m : Completed) : nat := List.length m.

(** Number of tasks among the first [tasks] that are checked. *)
Definition checkedCount (tasks : nat) (m : Completed) : nat :=
  List.length (List.filter (isDone m) (List.seq 0 tasks)).

End PrepSteps.

(* ===================================================================== *)
(** * app/page: reading a video id out of the URL field *)
(* ===================================================================== *)

Module Home.
Import JS.

(** The class [[a-zA-Z0-9_-]]. *)
Definition isIdChar (c : N) : bool :=
  ((97 <=? c) && (c <=? 122) || (65 <=? c) && (c <=? 90)
   || (48 <=? c) && (c <=? 57) || (c =? 95) || (c =? 45))%N.

(** [([a-zA-Z0-9_-]{11})] at the head of [s]: the captured group. *)
Definition takeId (s : jsstring) : option jsstring :=
  let id := List.firstn 11 s in
  if Nat.eqb (List.length id) 11 && List.forallb isIdChar id
  then Some id else None.

(** The alternatives of the first pattern, in order. *)
Definition prefixes : list jsstring :=
  [ str "youtube.com/watch?v="; str "youtu.be/"; str "youtube.com/embed/" ].

(** The first pattern tried at the head of [s]: the alternatives in order,
    each followed by the group. *)
Fixpoint matchHere (alternatives : list jsstring) (s : jsstring)
  : option jsstring :=
  match alternatives with
  | [] => None
  | lit :: rest =>
      match (if startsWith s lit
             then takeId (List.skipn (List.length lit) s) else None) with
      | Some id => Some id
      | None => matchHere rest s
      end
  end.

(** The first pattern is not anchored: the leftmost position where it
    matches wins. *)
Fixpoint searchUrl (s : jsstring) : option jsstring :=
  match matchHere prefixes s with
  | Some id => Some id
  | None =>
      match s with
      | [] => None
      | _ :: rest => searchUrl rest
      end
  end.

(** The second pattern, anchored at both ends: a bare id. *)
Definition matchBare (s : jsstring) : option jsstring :=
  if Nat.eqb (List.length s) 11 && List.forallb isIdChar s
  then Some s else None.

Definition extractVideoId (inputUrl : jsstring) : option jsstring :=
  match searchUrl inputUrl with
  | Some id => Some id
  | None => matchBare inputUrl
  end.

End Home.

(* ===================================================================== *)
(** * Properties of the store *)
(* ===================================================================== *)

Import JS I18n RecipeStore.

Section Navigation.

Variable r : Recipe.

Lemma nextStep_inRange (s : RecipeState) :
  Nav.inRange r s -> Nav.inRange r (nextStep s).
Proof.
  intros [Hr Hi]. unfold Nav.inRange, nextStep. rewrite Hr.
  destruct (Z.ltb_spec (currentStepIndex s) (stepCount r - 1)); cbn.
  - split; [assumption | lia].
  - split; assumption.
Qed.

Lemma prevStep_inRange (s : RecipeState) :
  Nav.inRange r s -> Nav.inRange r (prevStep s).
Proof.
  intros [Hr Hi]. unfold Nav.inRange, prevStep.
  destruct (Z.ltb_spec 0 (currentStepIndex s)); cbn.
  - split; [assumption | lia].
  - split; assumption.
Qed.

Lemma runAll_inRange (calls : list Nav.Call) :
  forall s, Nav.inRange r s -> Nav.inRange r (Nav.runAll calls s).
Proof.
  unfold Nav.runAll.
  induction calls as [| c calls IH]; intros s Hs; cbn.
  - exact Hs.
  - apply IH. destruct c; cbn.
    + now apply nextStep_inRange.
    + now apply prevStep_inRange.
Qed.

Lemma nextStep_cases (s : RecipeState) :
  currentRecipe s = Some r ->
  (currentStepIndex s < stepCount r - 1 ->
   nextStep s = set_currentStepIndex (currentStepIndex s + 1) s) /\
  (stepCount r - 1 <= currentStepIndex s -> nextStep s = s).
Proof.
  intros Hr. unfold nextStep. rewrite Hr.
  destruct (Z.ltb_spec (currentStepIndex s) (stepCount r - 1));
    split; intros; (reflexivity || lia).
Qed.

Lemma prevStep_cases (s : RecipeState) :
  (0 < currentStepIndex s ->
   prevStep s = set_currentStepIndex (currentStepIndex s - 1) s) /\
  (currentStepIndex s <= 0 -> prevStep s = s).
Proof.
  unfold prevStep.
  destruct (Z.ltb_spec 0 (currentStepIndex s));
    split; intros; (reflexivity || lia).
Qed.

End Navigation.

(** C1. With a recipe of at least one step loaded and the index at 0, after
    every call of any finite script of [nextStep] and [prevStep] calls the
    index lies in [[0, N-1]]. Both actions are total functions of the store,
    so no call can fail. In each state reached, [nextStep] adds one to the
    index exactly when it is below [N-1] and otherwise returns the store as
    it was; [prevStep] subtracts one exactly when the index is above 0 and
    otherwise returns the store as it was. *)
Theorem nav_index_stays_in_range :
  forall (r : Recipe) (s : RecipeState) (calls : list Nav.Call),
    currentRecipe s = Some r ->
    1 <= stepCount r ->
    currentStepIndex s = 0 ->
    forall k : nat,
      let sk := Nav.runAll (List.firstn k calls) s in
      0 <= currentStepIndex sk <= stepCount r - 1 /\
      (currentStepIndex sk < stepCount r - 1 ->
       currentStepIndex (nextStep sk) = currentStepIndex sk + 1) /\
      (stepCount r - 1 <= currentStepIndex sk -> nextStep sk = sk) /\
      (0 < currentStepIndex sk ->
       currentStepIndex (prevStep sk) = currentStepIndex sk - 1) /\
      (currentStepIndex sk <= 0 -> prevStep sk = sk).
Proof.
  intros r s calls Hr HN H0 k sk.
  assert (Hin : Nav.inRange r sk).
  { apply runAll_inRange. split; [assumption | lia]. }
  destruct Hin as [Hrk Hik].
  destruct (nextStep_cases r sk Hrk) as [Hn1 Hn2].
  destruct (prevStep_cases sk) as [Hp1 Hp2].
  repeat split; try lia; intros Hc.
  - rewrite (Hn1 Hc). reflexivity.
  - exact (Hn2 Hc).
  - rewrite (Hp1 Hc). reflexivity.
  - exact (Hp2 Hc).
Qed.

Lemma nav_index_stays_in_range_witness :
  0 <= currentStepIndex
         (Nav.runAll (List.firstn 5 Samples.script) Samples.loaded)
    <= stepCount Samples.recipe3 - 1.
Proof.
  refine (proj1 (nav_index_stays_in_range Samples.recipe3 Samples.loaded
                   Samples.script eq_refl _ eq_refl 5%nat)).
  vm_compute. discriminate.
Defined.

(** C8. With a recipe of [N] steps loaded, [goToStep index] returns the
    store unchanged for every index below 0 or at least [N], and for every
    index in [[0, N-1]] it sets [currentStepIndex] to that index and leaves
    the other fields alone. The action is a total function: nothing is
    raised. *)
Theorem goToStep_guarded :
  forall (r : Recipe) (s : RecipeState) (index : Z),
    currentRecipe s = Some r ->
    (index < 0 \/ stepCount r <= index -> goToStep index s = s) /\
    (0 <= index < stepCount r ->
     goToStep index s = set_currentStepIndex index s /\
     currentStepIndex (goToStep index s) = index).
Proof.
  intros r s index Hr. unfold goToStep. rewrite Hr.
  destruct (Z.leb_spec 0 index); destruct (Z.ltb_spec index (stepCount r));
    cbn; split; intros Hc; try lia; try reflexivity; split; reflexivity.
Qed.

Lemma goToStep_guarded_witness :
  goToStep 7 Samples.busy = Samples.busy /\
  goToStep (-1) Samples.busy = Samples.busy /\
  currentStepIndex (goToStep 2 Samples.busy) = 2.
Proof.
  pose proof (goToStep_guarded Samples.recipe3 Samples.busy 7 eq_refl) as H7.
  pose proof (goToStep_guarded Samples.recipe3 Samples.busy (-1) eq_refl) as Hm.
  pose proof (goToStep_guarded Samples.recipe3 Samples.busy 2 eq_refl) as H2.
  split; [| split].
  - apply (proj1 H7). right. vm_compute. discriminate.
  - apply (proj1 Hm). left. lia.
  - apply (proj2 H2). split; [lia | reflexivity].
Defined.

(** C9. [startTimer seconds] sets [timerSeconds] to [seconds] and
    [isTimerRunning] to true; [stopTimer] sets [isTimerRunning] to false and
    keeps [timerSeconds]; every other field of the store is the same before
    and after either action. *)
Theorem timer_actions_frame :
  forall (seconds : Z) (s : RecipeState),
    timerSeconds (startTimer seconds s) = seconds /\
    isTimerRunning (startTimer seconds s) = true /\
    sameOutsideTimer s (startTimer seconds s) /\
    isTimerRunning (stopTimer s) = false /\
    timerSeconds (stopTimer s) = timerSeconds s /\
    sameOutsideTimer s (stopTimer s).
Proof.
  intros seconds s. unfold sameOutsideTimer, startTimer, stopTimer.
  destruct s; cbn. repeat split.
Qed.

(** C4, at a concrete input: loading a recipe into a session whose timer is
    running and whose microphone is open moves the index back to 0 but
    leaves the timer running and the microphone open. *)
Lemma setRecipe_keeps_timer_and_listening :
  currentStepIndex Samples.busy = 1 /\
  currentStepIndex (setRecipe Samples.recipe3 Samples.busy) = 0 /\
  isTimerRunning (setRecipe Samples.recipe3 Samples.busy) = true /\
  isListening (setRecipe Samples.recipe3 Samples.busy) = true.
Proof.
  repeat split; reflexivity.
Qed.

(** C4, as the store implements it: [setRecipe recipe] installs the recipe,
    sets [currentStepIndex] to 0 and clears [error]; every other field, and
    in particular [isTimerRunning], [timerSeconds] and [isListening], keeps
    the value it had. *)
Theorem setRecipe_resets_position_only :
  forall (recipe : Recipe) (s : RecipeState),
    let s' := setRecipe recipe s in
    currentRecipe s' = Some recipe /\
    currentStepIndex s' = 0 /\
    error s' = None /\
    isTimerRunning s' = isTimerRunning s /\
    timerSeconds s' = timerSeconds s /\
    isListening s' = isListening s /\
    isLoading s' = isLoading s /\
    mode s' = mode s /\
    showExplainability s' = showExplainability s /\
    expertMode s' = expertMode s /\
    language s' = language s.
Proof.
  intros recipe s s'. subst s'. unfold setRecipe.
  destruct s; cbn. repeat split.
Qed.

Section TimerTicks.

Variable speech : bool.


Lemma set_timerSeconds_same (s : RecipeState) :
  set_timerSeconds (timerSeconds s) s = s.
Proof. destruct s; reflexivity. Qed.

Lemma tickTimer_counting (s : RecipeState) :
  isTimerRunning s = true -> 0 < timerSeconds s ->
  tickTimer speech s = (set_timerSeconds (timerSeconds s - 1) s, []).
Proof.
  intros Hrun Hpos. unfold tickTimer. rewrite Hrun.
  destruct (Z.ltb_spec 0 (timerSeconds s)); [reflexivity | lia].
Qed.

Lemma tickTimer_expiring (s : RecipeState) :
  isTimerRunning s = true -> timerSeconds s = 0 ->
  tickTimer speech s =
    (set_isTimerRunning false s, if speech then [timesUp] else []).
Proof.
  intros Hrun Hz. unfold tickTimer. rewrite Hrun, Hz. reflexivity.
Qed.

Lemma tickTimer_idle (s : RecipeState) :
  isTimerRunning s = false -> tickTimer speech s = (s, []).
Proof.
  intros Hrun. unfold tickTimer. rewrite Hrun. reflexivity.
Qed.

Lemma ticks_idle (n : nat) (s : RecipeState) :
  isTimerRunning s = false -> CookMode.ticks speech n s = (s, []).
Proof.
  intros Hrun. induction n as [| n IH]; cbn.
  - reflexivity.
  - rewrite (tickTimer_idle s Hrun), IH. reflexivity.
Qed.

Lemma ticks_add (n m : nat) :
  forall s,
    CookMode.ticks speech (n + m) s =
      (fst (CookMode.ticks speech m (fst (CookMode.ticks speech n s))),
       snd (CookMode.ticks speech n s) ++
       snd (CookMode.ticks speech m (fst (CookMode.ticks speech n s)))).
Proof.
  induction n as [| n IH]; intros s; cbn.
  - destruct (CookMode.ticks speech m s); reflexivity.
  - destruct (tickTimer speech s) as [s1 o1]. rewrite IH.
    destruct (CookMode.ticks speech n s1) as [s2 o2]. cbn.
    rewrite app_assoc. reflexivity.
Qed.

Lemma ticks_counting (n : nat) :
  forall s,
    isTimerRunning s = true -> timerSeconds s = Z.of_nat n ->
    CookMode.ticks speech n s = (set_timerSeconds 0 s, []).
Proof.
  induction n as [| n IH]; intros s Hrun Hsec.
  - cbn. rewrite <- (set_timerSeconds_same s) at 1. rewrite Hsec. reflexivity.
  - cbn [CookMode.ticks].
    rewrite (tickTimer_counting s Hrun) by lia.
    rewrite IH; [ reflexivity | exact Hrun | cbn; lia ].
Qed.

End TimerTicks.

(** C3, as the store behaves: after [startTimer D] and exactly [D] calls of
    [tickTimer] the counter is 0 but the timer is still running and nothing
    has been spoken; the call after that one stops the timer and speaks the
    time-is-up utterance, and however many calls follow, that utterance
    stays the only one. *)
Theorem timer_expires_one_tick_late :
  forall (D : nat) (s : RecipeState),
    let s0 := startTimer (Z.of_nat D) s in
    CookMode.ticks true D s0 = (startTimer 0 s, []) /\
    isTimerRunning (fst (CookMode.ticks true D s0)) = true /\
    forall k : nat,
      CookMode.ticks true (D + 1 + k) s0 =
        (stopTimer (startTimer 0 s), [timesUp]).
Proof.
  intros D s s0.
  assert (HD : CookMode.ticks true D s0 = (startTimer 0 s, [])).
  { rewrite (ticks_counting true D s0); reflexivity. }
  split; [exact HD |]. split; [rewrite HD; reflexivity |].
  intros k. rewrite <- Nat.add_assoc.
  rewrite ticks_add, HD. cbn [fst snd Nat.add CookMode.ticks app].
  rewrite (tickTimer_expiring true (startTimer 0 s)) by reflexivity.
  rewrite ticks_idle by reflexivity. reflexivity.
Qed.

(** C2, as the components behave: the voice commands [timer] and [stop],
    dispatched the way the cook screen mounts the voice control, return the
    store unchanged, whatever its state; so does a final transcript that
    says "start timer". On the sample session the spoken [timer] command
    leaves the timer stopped, while the start button of the timer card
    starts it with the step's 30 seconds, and with 60 seconds on the step
    that configures no duration. *)
Theorem voice_timer_commands_leave_store :
  (forall (speech : bool) (s : RecipeState),
      fst (CookMode.dispatchVoice speech CmdTimer s) = s /\
      fst (CookMode.dispatchVoice speech CmdStop s) = s /\
      fst (VoiceControl.onFinalResult speech CookMode.voiceOnCommand
             (str "start timer") s) = s) /\
  VoiceControl.matchCommand (str "start timer") = Some CmdTimer /\
  isTimerRunning (fst (CookMode.dispatchVoice true CmdTimer Samples.loaded))
    = false /\
  isTimerRunning (CookMode.onStartTimerClick Samples.loaded) = true /\
  timerSeconds (CookMode.onStartTimerClick Samples.loaded) = 30 /\
  timerSeconds (CookMode.onStartTimerClick (goToStep 2 Samples.loaded)) = 60 /\
  isTimerRunning
    (fst (CookMode.dispatchVoice true CmdStop
            (CookMode.onStartTimerClick Samples.loaded))) = true.
Proof.
  split; [| repeat split; reflexivity].
  intros speech s. repeat split; reflexivity.
Qed.

(* ===================================================================== *)
(** * Properties of the loop monitor *)
(* ===================================================================== *)

Import YouTubePlayer.

Lemma pollTick_cases (startSeconds endSeconds : number) (sample : Sample) :
  pollTick startSeconds endSeconds sample =
    if atOrPastEnd endSeconds sample then [SeekTo startSeconds true] else [].
Proof. destruct sample; reflexivity. Qed.

Lemma seekCount_cons (cmds : list PlayerCmd) (trace : list (list PlayerCmd)) :
  seekCount (cmds :: trace) =
    (List.length (List.filter isSeek cmds) + seekCount trace)%nat.
Proof.
  unfold seekCount. cbn. rewrite filter_app, length_app. reflexivity.
Qed.

Lemma seekCount_polls (startSeconds endSeconds : number) (samples : list Sample) :
  seekCount (List.map (pollTick startSeconds endSeconds) samples) =
    List.length (List.filter (atOrPastEnd endSeconds) samples).
Proof.
  induction samples as [| x samples IH]; [reflexivity |].
  cbn [List.map List.filter]. rewrite seekCount_cons, IH, pollTick_cases.
  destruct (atOrPastEnd endSeconds x); reflexivity.
Qed.

(** C5, at the spec's scenario: with the window [[10, 20]] (the timestamps
    "0:10" and "0:20") and the position reports 5, 12, 19, 20, 21, the
    monitor seeks to 10 on the fourth and again on the fifth firing: two
    seeks, not one. *)
Lemma loop_poll_seeks_twice :
  secondsOf (Some (str "0:10")) = Num 10 /\
  secondsOf (Some (str "0:20")) = Num 20 /\
  loopMonitor true (Num 10) (Num 20) true Samples.reports =
    [[]; []; []; [SeekTo (Num 10) true]; [SeekTo (Num 10) true]] /\
  seekCount (loopMonitor true (Num 10) (Num 20) true Samples.reports) = 2%nat.
Proof.
  repeat split; reflexivity.
Qed.

(** C5, as the monitor behaves: for a window with a non-zero end and any
    sequence of polled samples, each firing on which the player reports a
    position at or past the end issues one seek to the start, and every
    other firing (a position below the end, or a failed sample) issues
    nothing; the number of seeks is the number of reports at or past the
    end. *)
Theorem loop_poll_seeks_on_each_report_past_end :
  forall (startSeconds endSeconds : Z) (samples : list Sample),
    endSeconds <> 0 ->
    let trace :=
      loopMonitor true (Num startSeconds) (Num endSeconds) true samples in
    List.length trace = List.length samples /\
    (forall (i : nat) (sample : Sample),
        List.nth_error samples i = Some sample ->
        List.nth_error trace i =
          Some (if atOrPastEnd (Num endSeconds) sample
                then [SeekTo (Num startSeconds) true] else [])) /\
    (forall (i : nat) (t : Z),
        List.nth_error samples i = Some (Position (Num t)) ->
        t < endSeconds -> List.nth_error trace i = Some []) /\
    seekCount trace =
      List.length (List.filter (atOrPastEnd (Num endSeconds)) samples).
Proof.
  intros startSeconds endSeconds samples Hend trace.
  assert (Htrace : trace =
            List.map (pollTick (Num startSeconds) (Num endSeconds)) samples).
  { unfold trace, loopMonitor, loopMonitorEnabled. cbn.
    destruct (Z.eqb_spec endSeconds 0); [contradiction | reflexivity]. }
  rewrite Htrace.
  assert (Hnth : forall (i : nat) (sample : Sample),
             List.nth_error samples i = Some sample ->
             List.nth_error
               (List.map (pollTick (Num startSeconds) (Num endSeconds)) samples) i =
               Some (if atOrPastEnd (Num endSeconds) sample
                     then [SeekTo (Num startSeconds) true] else [])).
  { intros i sample Hi. rewrite nth_error_map, Hi. cbn.
    rewrite pollTick_cases. reflexivity. }
  split; [apply length_map |]. split; [exact Hnth |]. split.
  - intros i t Hi Hlt. rewrite (Hnth i _ Hi). cbn.
    destruct (Z.leb_spec endSeconds t); [lia | reflexivity].
  - apply seekCount_polls.
Qed.

Lemma loop_poll_seeks_on_each_report_past_end_witness :
  List.nth_error (loopMonitor true (Num 10) (Num 20) true Samples.reports) 3 =
    Some [SeekTo (Num 10) true] /\
  List.nth_error (loopMonitor true (Num 10) (Num 20) true Samples.reports) 4 =
    Some [SeekTo (Num 10) true] /\
  List.nth_error (loopMonitor true (Num 10) (Num 20) true Samples.reports) 2 =
    Some [].
Proof.
  assert (Hend : 20 <> 0) by discriminate.
  pose proof (loop_poll_seeks_on_each_report_past_end 10 20 Samples.reports Hend)
    as [_ [Hnth [Hbelow _]]].
  split; [| split].
  - exact (Hnth 3%nat (Position (Num 20)) eq_refl).
  - exact (Hnth 4%nat (Position (Num 21)) eq_refl).
  - apply (Hbelow 2%nat 19); [reflexivity | lia].
Defined.

(* ===================================================================== *)
(** * Properties of the command matcher *)
(* ===================================================================== *)

Import VoiceControl.

Lemma startsWith_spec (p : jsstring) :
  forall s, startsWith s p = true <-> exists b, s = p ++ b.
Proof.
  induction p as [| a p IH]; intros s.
  - destruct s; cbn; split; intros _; try reflexivity; eexists; reflexivity.
  - destruct s as [| c s]; cbn.
    + split; [discriminate | intros [b Hb]; discriminate].
    + rewrite andb_true_iff, N.eqb_eq, IH. split.
      * intros [-> [b ->]]. exists b. reflexivity.
      * intros [b Hb]. injection Hb as -> ->. split; [reflexivity |].
        exists b. reflexivity.
Qed.

Lemma includes_unfold (s p : jsstring) :
  includes s p =
    startsWith s p || match s with [] => false | _ :: s' => includes s' p end.
Proof. destruct s; reflexivity. Qed.

Lemma includes_spec (p : jsstring) :
  forall s, includes s p = true <-> exists a b, s = a ++ p ++ b.
Proof.
  intros s. split.
  - induction s as [| c s IH]; rewrite includes_unfold, orb_true_iff.
    + intros [H | H]; [| discriminate].
      apply startsWith_spec in H as [b ->]. exists [], b. reflexivity.
    + intros [H | H].
      * apply startsWith_spec in H as [b Hb]. exists [], b. exact Hb.
      * destruct (IH H) as [a [b ->]]. exists (c :: a), b. reflexivity.
  - intros [a [b ->]]. induction a as [| x a IH].
    + rewrite includes_unfold. apply orb_true_iff. left.
      apply startsWith_spec. exists b. reflexivity.
    + rewrite includes_unfold. apply orb_true_iff. right. exact IH.
Qed.

Lemma matchPatterns_spec (normalized : jsstring) (patterns : list jsstring) :
  matchPatterns normalized patterns = true <-> phraseOccurs normalized patterns.
Proof.
  unfold phraseOccurs. induction patterns as [| q patterns IH]; cbn.
  - split; [discriminate | intros [p [a [b [[] _]]]]].
  - destruct (includes normalized (toLowerCase q)) eqn:Hq.
    + split; [intros _ | reflexivity].
      apply includes_spec in Hq as [a [b Hab]].
      exists q, a, b. split; [left; reflexivity | exact Hab].
    + rewrite IH. split.
      * intros [p [a [b [Hin Hab]]]]. exists p, a, b.
        split; [right; exact Hin | exact Hab].
      * intros [p [a [b [[<- | Hin] Hab]]]].
        -- assert (Hinc : includes normalized (toLowerCase q) = true)
             by (apply includes_spec; exists a, b; exact Hab).
           congruence.
        -- exists p, a, b. split; assumption.
Qed.

Lemma matchPatterns_false (normalized : jsstring) (patterns : list jsstring) :
  matchPatterns normalized patterns = false <->
  ~ phraseOccurs normalized patterns.
Proof.
  rewrite <- matchPatterns_spec.
  destruct (matchPatterns normalized patterns); split; congruence.
Qed.

Lemma matchEntries_Some (normalized : jsstring) (c : Command) :
  forall table,
    matchEntries normalized table = Some c <->
    exists before patterns after,
      table = before ++ (c, patterns) :: after /\
      phraseOccurs normalized patterns /\
      forall c' patterns',
        In (c', patterns') before -> ~ phraseOccurs normalized patterns'.
Proof.
  induction table as [| [c0 ps0] table IH]; cbn.
  - split; [discriminate |].
    intros [before [ps [after [Heq _]]]]. destruct before; discriminate.
  - destruct (matchPatterns normalized ps0) eqn:H0.
    + split.
      * intros Hc. injection Hc as ->. exists [], ps0, table.
        split; [reflexivity |]. split; [now apply matchPatterns_spec |].
        intros c' ps' [].
      * intros [before [ps [after [Heq [Hocc Hbefore]]]]].
        destruct before as [| [c1 ps1] before]; cbn in Heq.
        -- injection Heq as -> -> ->. reflexivity.
        -- injection Heq as <- <- ->.
           exfalso. apply (Hbefore c0 ps0); [left; reflexivity |].
           now apply matchPatterns_spec.
    + rewrite IH. apply matchPatterns_false in H0. split.
      * intros [before [ps [after [-> [Hocc Hbefore]]]]].
        exists ((c0, ps0) :: before), ps, after.
        split; [reflexivity |]. split; [exact Hocc |].
        intros c' ps' [Heq | Hin].
        -- injection Heq as <- <-. exact H0.
        -- exact (Hbefore c' ps' Hin).
      * intros [before [ps [after [Heq [Hocc Hbefore]]]]].
        destruct before as [| [c1 ps1] before]; cbn in Heq.
        -- injection Heq as -> -> ->. contradiction.
        -- injection Heq as -> -> ->. exists before, ps, after.
           split; [reflexivity |]. split; [exact Hocc |].
           intros c' ps' Hin. apply (Hbefore c' ps'). right. exact Hin.
Qed.

Lemma matchEntries_None (normalized : jsstring) :
  forall table,
    matchEntries normalized table = None <->
    forall c patterns,
      In (c, patterns) table -> ~ phraseOccurs normalized patterns.
Proof.
  induction table as [| [c0 ps0] table IH]; cbn.
  - split; [intros _ c ps [] | reflexivity].
  - destruct (matchPatterns normalized ps0) eqn:H0.
    + split; [discriminate |]. intros Hall. exfalso.
      apply (Hall c0 ps0); [left; reflexivity | now apply matchPatterns_spec].
    + rewrite IH. apply matchPatterns_false in H0. split.
      * intros Hall c ps [Heq | Hin].
        -- injection Heq as <- <-. exact H0.
        -- exact (Hall c ps Hin).
      * intros Hall c ps Hin. apply (Hall c ps). right. exact Hin.
Qed.

Lemma trimStart_decompose (s : jsstring) :
  exists ws : jsstring,
    allWhite ws /\ s = ws ++ trimStart s /\
    forall c r, trimStart s = c :: r -> isWhiteSpace c = false.
Proof.
  induction s as [| c s [ws [Hws [Heq Hhead]]]].
  - exists []. split; [constructor |]. split; [reflexivity |].
    intros c r H. discriminate H.
  - cbn [trimStart]. destruct (isWhiteSpace c) eqn:Hc.
    + exists (c :: ws). split; [constructor; assumption |].
      split; [cbn; f_equal; exact Heq | exact Hhead].
    + exists []. split; [constructor |]. split; [reflexivity |].
      intros c' r H. injection H as <- _. exact Hc.
Qed.

Lemma trimEnd_decompose (s : jsstring) :
  exists ws : jsstring,
    allWhite ws /\ s = trimEnd s ++ ws /\
    forall r c, trimEnd s = r ++ [c] -> isWhiteSpace c = false.
Proof.
  unfold trimEnd.
  destruct (trimStart_decompose (List.rev s)) as [ws [Hws [Heq Hhead]]].
  exists (List.rev ws). split; [apply Forall_rev; exact Hws |]. split.
  - rewrite <- rev_app_distr, <- Heq, rev_involutive. reflexivity.
  - intros r c H. apply (f_equal (@List.rev N)) in H.
    rewrite rev_involutive, rev_app_distr in H. cbn in H.
    exact (Hhead c (List.rev r) H).
Qed.

(** [trim] removes a run of white space at each end and leaves a text that
    neither starts nor ends with white space. *)
Lemma trim_decompose (s : jsstring) :
  exists ws1 ws2 : jsstring,
    allWhite ws1 /\ allWhite ws2 /\ s = ws1 ++ trim s ++ ws2 /\
    (forall c r, trim s = c :: r -> isWhiteSpace c = false) /\
    (forall r c, trim s = r ++ [c] -> isWhiteSpace c = false).
Proof.
  unfold trim.
  destruct (trimStart_decompose s) as [ws1 [H1 [Heq1 Hhead]]].
  destruct (trimEnd_decompose (trimStart s)) as [ws2 [H2 [Heq2 Hlast]]].
  exists ws1, ws2. split; [exact H1 |]. split; [exact H2 |].
  split; [rewrite <- Heq2; exact Heq1 |]. split; [| exact Hlast].
  intros c r Hc. rewrite Hc in Heq2. cbn in Heq2.
  exact (Hhead c _ Heq2).
Qed.

Lemma lowerUnit_not_upper (c : N) :
  (lowerUnit c < 65 \/ 90 < lowerUnit c)%N.
Proof.
  unfold lowerUnit.
  destruct ((65 <=? c) && (c <=? 90))%N eqn:Hup.
  - apply andb_true_iff in Hup as [H1 H2]. apply N.leb_le in H1. lia.
  - apply andb_false_iff in Hup as [H | H]; apply N.leb_gt in H; lia.
Qed.

(** C6. [matchCommand] lower-cases and trims the transcript and looks for
    the phrases of the table as substrings of the result, entry by entry in
    table order. For a transcript and a table within the repertoire whose
    case mapping is modelled (ASCII and CJK ideographs): the normalized
    text is the lower-cased transcript without the white space at its two
    ends, it holds no upper-case ASCII letter and neither starts nor ends
    with white space; the command returned is exactly the one whose entry
    is the first with a phrase occurring in the normalized text, nothing
    is returned exactly when no phrase of any entry occurs, and
    transcripts that differ only in letter case get the same answer. It
    is a pure total function, so a miss has no effect and raises nothing.
    On the shipped table and on the spec's two-entry table, "please go
    next" gives [next], "go back now" gives [prev] (the spec's [previous])
    and "banana" gives nothing. Because the transcript is trimmed before
    the search, a phrase that begins or ends with a space is not found in
    a transcript that consists of that phrase alone. *)
Theorem matchCommand_first_match_wins :
  (forall (table : list (Command * list jsstring)) (transcript : jsstring),
      plainText transcript ->
      List.Forall (fun entry => List.Forall plainText (snd entry)) table ->
      let normalized := trim (toLowerCase transcript) in
      (exists ws1 ws2 : jsstring,
          allWhite ws1 /\ allWhite ws2 /\
          toLowerCase transcript = ws1 ++ normalized ++ ws2) /\
      (forall c r, normalized = c :: r -> isWhiteSpace c = false) /\
      (forall r c, normalized = r ++ [c] -> isWhiteSpace c = false) /\
      (forall c, In c normalized -> (c < 65 \/ 90 < c)%N) /\
      (forall c : Command,
          matchCommandIn table transcript = Some c <->
          exists before patterns after,
            table = before ++ (c, patterns) :: after /\
            phraseOccurs normalized patterns /\
            forall c' patterns',
              In (c', patterns') before ->
              ~ phraseOccurs normalized patterns') /\
      (matchCommandIn table transcript = None <->
       forall c patterns,
         In (c, patterns) table -> ~ phraseOccurs normalized patterns) /\
      (forall other : jsstring,
          plainText other ->
          toLowerCase other = toLowerCase transcript ->
          matchCommandIn table other = matchCommandIn table transcript)) /\
  matchCommand (str "please go next") = Some CmdNext /\
  matchCommand (str "go back now") = Some CmdPrev /\
  matchCommand (str "banana") = None /\
  matchCommand (str "  Please GO Next ") = Some CmdNext /\
  matchCommandIn Samples.smallTable (str "please go next") = Some CmdNext /\
  matchCommandIn Samples.smallTable (str "go back now") = Some CmdPrev /\
  matchCommandIn Samples.smallTable (str "banana") = None /\
  matchCommandIn [(CmdNext, [str " next"])] (str " next") = None /\
  matchCommandIn [(CmdNext, [str "next "])] (str "next ") = None /\
  matchCommandIn [(CmdNext, [str " next"])] (str "go next") = Some CmdNext.
Proof.
  split; [| repeat split; reflexivity].
  intros table transcript _ _ normalized.
  destruct (trim_decompose (toLowerCase transcript))
    as [ws1 [ws2 [H1 [H2 [Heq [Hhead Hlast]]]]]].
  fold normalized in Heq, Hhead, Hlast.
  split; [exists ws1, ws2; repeat split; assumption |].
  split; [exact Hhead |]. split; [exact Hlast |]. split; [| split; [| split]].
  - intros c Hc.
    assert (Hin : In c (toLowerCase transcript)).
    { rewrite Heq. apply in_or_app. right. apply in_or_app. left. exact Hc. }
    unfold toLowerCase in Hin. apply in_map_iff in Hin as [c' [<- _]].
    apply lowerUnit_not_upper.
  - intros c. apply matchEntries_Some.
  - apply matchEntries_None.
  - intros other _ Hlow. unfold matchCommandIn, normalize. rewrite Hlow.
    reflexivity.
Qed.

Lemma matchCommand_first_match_wins_witness :
  matchCommand (str "GO BACK") = matchCommand (str "go back").
Proof.
  assert (Htable : List.Forall
                     (fun entry => List.Forall plainText (snd entry))
                     COMMAND_PATTERNS)
    by (repeat constructor).
  assert (Hlower : plainText (str "go back")) by (repeat constructor).
  assert (Hupper : plainText (str "GO BACK")) by (repeat constructor).
  destruct (proj1 matchCommand_first_match_wins COMMAND_PATTERNS
              (str "go back") Hlower Htable)
    as [_ [_ [_ [_ [_ [_ Hcase]]]]]].
  exact (Hcase (str "GO BACK") Hupper eq_refl).
Defined.

(* ===================================================================== *)
(** * Properties of the timestamp parser *)
(* ===================================================================== *)

Import Timestamp.

Lemma decimal_unfold (n : N) :
  decimal n =
    if (n <? 10)%N then [(48 + n)%N]
    else decimal (n / 10) ++ [(48 + n mod 10)%N].
Proof.
  funelim (decimal n); rewrite e; reflexivity.
Qed.

Lemma isDigit_range (c : N) : isDigit c = true <-> (48 <= c <= 57)%N.
Proof.
  unfold isDigit. rewrite andb_true_iff, !N.leb_le. reflexivity.
Qed.

Lemma digit_not_white (c : N) : isDigit c = true -> isWhiteSpace c = false.
Proof.
  intros H. apply isDigit_range in H. unfold isWhiteSpace.
  repeat match goal with
         | |- (_ || _)%bool = false => apply orb_false_iff; split
         end;
    try (apply N.eqb_neq; lia);
    apply andb_false_iff; (left; apply N.leb_gt; lia) || (right; apply N.leb_gt; lia).
Qed.

Lemma digit_not_colon (c : N) : isDigit c = true -> (c =? colon)%N = false.
Proof.
  intros H. apply isDigit_range in H. apply N.eqb_neq. unfold colon. lia.
Qed.

Lemma decimal_allDigits (n : N) : allDigits (decimal n).
Proof.
  unfold allDigits.
  induction n as [n IH] using (well_founded_induction N.lt_wf_0).
  rewrite decimal_unfold. destruct (N.ltb_spec n 10).
  - constructor; [| constructor]. apply isDigit_range. lia.
  - apply Forall_app. split.
    + apply IH. apply N.div_lt; lia.
    + constructor; [| constructor]. apply isDigit_range.
      assert (Hm : (n mod 10 < 10)%N) by (apply N.mod_lt; discriminate).
      revert Hm. generalize (n mod 10)%N. intros d Hd. lia.
Qed.

Lemma decimal_nonempty (n : N) : decimal n <> [].
Proof.
  rewrite decimal_unfold. destruct (n <? 10)%N; [discriminate |].
  intros H. apply app_eq_nil in H as [_ H]. discriminate.
Qed.

Lemma field_allDigits (pad : nat) (n : N) : allDigits (field pad n).
Proof.
  unfold allDigits, field. apply Forall_app. split.
  - apply Forall_forall. intros c Hc. apply repeat_spec in Hc as ->.
    reflexivity.
  - apply decimal_allDigits.
Qed.

Lemma field_nonempty (pad : nat) (n : N) : field pad n <> [].
Proof.
  unfold field. intros H. apply app_eq_nil in H as [_ H].
  exact (decimal_nonempty n H).
Qed.

Lemma readDigits_app (s1 s2 : jsstring) :
  forall acc,
    readDigits acc (s1 ++ s2) =
      match readDigits acc s1 with
      | Some a => readDigits a s2
      | None => None
      end.
Proof.
  induction s1 as [| c s1 IH]; intros acc; cbn.
  - reflexivity.
  - destruct (isDigit c); [apply IH | reflexivity].
Qed.

Lemma readDigits_zeros (pad : nat) :
  readDigits 0 (List.repeat 48%N pad) = Some 0.
Proof.
  induction pad as [| pad IH]; [reflexivity | exact IH].
Qed.

Lemma readDigits_decimal (n : N) :
  readDigits 0 (decimal n) = Some (Z.of_N n).
Proof.
  induction n as [n IH] using (well_founded_induction N.lt_wf_0).
  rewrite decimal_unfold. destruct (N.ltb_spec n 10) as [Hlt | Hge].
  - cbn [readDigits].
    assert (Hd : isDigit (48 + n) = true) by (apply isDigit_range; lia).
    rewrite Hd. f_equal. lia.
  - rewrite readDigits_app, IH by (apply N.div_lt; lia).
    cbn [readDigits].
    assert (Hm : (n mod 10 < 10)%N) by (apply N.mod_lt; discriminate).
    pose proof (N.div_mod n 10 ltac:(discriminate)) as Hdm.
    revert Hm Hdm. generalize (n mod 10)%N (n / 10)%N. intros d q Hd Hdm.
    assert (Hdig : isDigit (48 + d) = true) by (apply isDigit_range; lia).
    rewrite Hdig. f_equal. lia.
Qed.

Lemma readDigits_field (pad : nat) (n : N) :
  readDigits 0 (field pad n) = Some (Z.of_N n).
Proof.
  unfold field. rewrite readDigits_app, readDigits_zeros.
  apply readDigits_decimal.
Qed.

Lemma trimStart_digits (s : jsstring) : allDigits s -> trimStart s = s.
Proof.
  intros H. destruct H as [| c s Hc Hs]; [reflexivity |].
  cbn. rewrite (digit_not_white c Hc). reflexivity.
Qed.

Lemma trim_digits (s : jsstring) : allDigits s -> trim s = s.
Proof.
  intros H. unfold trim, trimEnd. rewrite (trimStart_digits s H).
  rewrite trimStart_digits by (apply Forall_rev; exact H).
  apply rev_involutive.
Qed.

(** [Number] reads a non-empty run of digits as its decimal value. *)
Lemma Number_field (pad : nat) (n : N) :
  Number (field pad n) = Num (Z.of_N n).
Proof.
  unfold Number. rewrite (trim_digits _ (field_allDigits pad n)).
  pose proof (field_allDigits pad n) as Hall.
  pose proof (field_nonempty pad n) as Hne.
  pose proof (readDigits_field pad n) as Hread.
  destruct (field pad n) as [| c r]; [contradiction |].
  inversion Hall as [| c' r' Hc Hr]; subst.
  apply isDigit_range in Hc.
  destruct (N.eqb_spec c 43); [lia |].
  destruct (N.eqb_spec c 45); [lia |].
  unfold readUnsigned. rewrite Hread. reflexivity.
Qed.

Lemma split_nonempty (sep : N) (s : jsstring) : split sep s <> [].
Proof.
  destruct s as [| c s]; cbn; [discriminate |].
  destruct (c =? sep)%N; [discriminate |].
  destruct (split sep s); discriminate.
Qed.

Lemma split_digits (s : jsstring) : allDigits s -> split colon s = [s].
Proof.
  induction 1 as [| c s Hc Hs IH]; cbn; [reflexivity |].
  rewrite (digit_not_colon c Hc), IH. reflexivity.
Qed.

Lemma split_digits_colon (s rest : jsstring) :
  allDigits s -> split colon (s ++ colon :: rest) = s :: split colon rest.
Proof.
  induction 1 as [| c s Hc Hs IH]; cbn.
  - reflexivity.
  - rewrite (digit_not_colon c Hc), IH. reflexivity.
Qed.

Lemma repeat_snoc (pad : nat) :
  List.repeat 48%N pad ++ [48%N] = List.repeat 48%N (S pad).
Proof.
  induction pad as [| pad IH]; cbn; [reflexivity |].
  rewrite IH. reflexivity.
Qed.

Lemma decimal_digit (d : N) : (d < 10)%N -> decimal d = [(48 + d)%N].
Proof.
  intros Hd. rewrite decimal_unfold.
  destruct (N.ltb_spec d 10); [reflexivity | lia].
Qed.

Lemma decimal_snoc (n d : N) :
  (0 < n)%N -> (d < 10)%N ->
  decimal (10 * n + d) = decimal n ++ [(48 + d)%N].
Proof.
  intros Hn Hd. rewrite (decimal_unfold (10 * n + d)).
  destruct (N.ltb_spec (10 * n + d) 10) as [Hlt | _]; [lia |].
  assert (Hq : ((10 * n + d) / 10 = n)%N).
  { symmetry. apply (N.div_unique _ 10 n d); [exact Hd | reflexivity]. }
  assert (Hr : ((10 * n + d) mod 10 = d)%N).
  { symmetry. apply (N.mod_unique _ 10 n d); [exact Hd | reflexivity]. }
  rewrite Hq, Hr. reflexivity.
Qed.

(** Every non-empty run of digits is a field: a numeral behind leading
    zeros. The fields are exactly the well-formed timestamp parts. *)
Lemma digits_are_fields (s : jsstring) :
  allDigits s -> s <> [] -> exists pad n, s = field pad n.
Proof.
  induction s as [| c s IH] using rev_ind; intros Hall Hne;
    [contradiction |].
  apply Forall_app in Hall as [Hs Hc].
  inversion Hc as [| c' l Hd _]; subst. apply isDigit_range in Hd.
  assert (Hcd : (48 + (c - 48))%N = c) by lia.
  assert (Hlt : (c - 48 < 10)%N) by lia.
  destruct s as [| x s'].
  - exists 0%nat, (c - 48)%N. unfold field. cbn [List.repeat app].
    rewrite (decimal_digit _ Hlt), Hcd. reflexivity.
  - destruct (IH Hs ltac:(discriminate)) as [pad [n Hf]]. rewrite Hf.
    destruct (N.eq_dec n 0) as [-> | Hn].
    + exists (S pad), (c - 48)%N. unfold field.
      rewrite (decimal_digit 0) by lia. rewrite (decimal_digit _ Hlt), Hcd.
      change (48 + 0)%N with 48%N. rewrite repeat_snoc. reflexivity.
    + exists pad, (10 * n + (c - 48))%N. unfold field.
      rewrite decimal_snoc by lia. rewrite Hcd, app_assoc. reflexivity.
Qed.

Lemma parse_mmss_fields (padM padS : nat) (M S : N) :
  parseTimestamp (mmss (field padM M) (field padS S)) =
    Num (Z.of_N M * 60 + Z.of_N S).
Proof.
  unfold parseTimestamp, mmss. cbn [app]. fold colon.
  rewrite (split_digits_colon _ _ (field_allDigits padM M)).
  rewrite (split_digits _ (field_allDigits padS S)).
  cbn [List.map]. rewrite !Number_field. reflexivity.
Qed.

(** C7. For all natural numbers H, M and S, written in decimal with any
    number of leading zeros, [parseTimestamp] maps the text [M:S] to
    [M*60 + S] and the text [H:M:S] to [H*3600 + M*60 + S], as long as that
    number of seconds is within [MAX_SAFE_INTEGER], the range in which the
    host's arithmetic is exact. *)
Theorem parseTimestamp_wellformed :
  forall (H M S : N) (padH padM padS : nat),
    (Z.of_N M * 60 + Z.of_N S <= MAX_SAFE_INTEGER ->
     parseTimestamp (mmss (field padM M) (field padS S)) =
       Num (Z.of_N M * 60 + Z.of_N S)) /\
    (Z.of_N H * 3600 + Z.of_N M * 60 + Z.of_N S <= MAX_SAFE_INTEGER ->
     parseTimestamp (hhmmss (field padH H) (field padM M) (field padS S)) =
       Num (Z.of_N H * 3600 + Z.of_N M * 60 + Z.of_N S)).
Proof.
  intros H M S padH padM padS. split; intros _.
  - apply parse_mmss_fields.
  - unfold parseTimestamp, hhmmss. cbn [app]. fold colon.
    rewrite (split_digits_colon _ _ (field_allDigits padH H)).
    rewrite (split_digits_colon _ _ (field_allDigits padM M)).
    rewrite (split_digits _ (field_allDigits padS S)).
    cbn [List.map]. rewrite !Number_field. reflexivity.
Qed.

Lemma parseTimestamp_wellformed_witness :
  parseTimestamp (mmss (field 1 1) (field 1 5)) = Num 65 /\
  parseTimestamp (hhmmss (field 0 1) (field 1 2) (field 1 3)) = Num 3723.
Proof.
  pose proof (parseTimestamp_wellformed 1 1 5 0 1 1) as [Hmm _].
  pose proof (parseTimestamp_wellformed 1 2 3 0 1 1) as [_ Hhh].
  split.
  - apply Hmm. vm_compute. discriminate.
  - apply Hhh. vm_compute. discriminate.
Defined.

Lemma secondsOf_mmss_fields (padM padS : nat) (M S : N) :
  secondsOf (Some (mmss (field padM M) (field padS S))) =
    Num (Z.of_N M * 60 + Z.of_N S).
Proof.
  rewrite <- (parse_mmss_fields padM padS M S). unfold secondsOf.
  destruct (mmss (field padM M) (field padS S)) eqn:E; [| reflexivity].
  unfold mmss in E. apply app_eq_nil in E as [E _].
  exfalso. exact (field_nonempty padM M E).
Qed.

(** C10, at a concrete input: with the malformed start "90" and the end
    "0:20", the start parses to 0 and the loop monitor is still scheduled;
    when the player reports position 20 it seeks back to 0. Looping goes
    on, from time 0. *)
Lemma malformed_start_still_loops :
  List.length (split colon (str "90")) = 1%nat /\
  secondsOf (Some (str "90")) = Num 0 /\
  loopMonitorEnabled true (secondsOf (Some (str "0:20"))) true = true /\
  loopMonitor true (secondsOf (Some (str "90"))) (secondsOf (Some (str "0:20")))
              true [Position (Num 19); Position (Num 20)] =
    [[]; [SeekTo (Num 0) true]].
Proof.
  repeat split; reflexivity.
Qed.

Lemma loopMonitor_running (startSeconds : number) (endSeconds : Z)
      (samples : list Sample) :
  endSeconds <> 0 ->
  loopMonitor true startSeconds (Num endSeconds) true samples =
    List.map (fun sample =>
                if atOrPastEnd (Num endSeconds) sample
                then [SeekTo startSeconds true] else []) samples.
Proof.
  intros Hend. unfold loopMonitor, loopMonitorEnabled. cbn.
  destruct (Z.eqb_spec endSeconds 0); [contradiction |]. cbn.
  apply map_ext. intros sample. apply pollTick_cases.
Qed.

(** C10, as the component behaves: a timestamp whose split on the colon has
    neither two nor three parts parses to 0 and nothing is raised. Used as
    a start, it makes the handler of the player's ENDED event issue no
    call; used as an end, it keeps the loop monitor from being scheduled.
    Used as a start beside an end that is not zero, and so beside every
    well-formed end [M:S] of at least one second, it leaves the loop
    monitor running: on every sample at or past the end the monitor seeks
    back to 0. In particular "90", the empty string and "1:2:3:4" parse to
    0. *)
Theorem parseTimestamp_malformed :
  forall ts : jsstring,
    List.length (split colon ts) <> 2%nat ->
    List.length (split colon ts) <> 3%nat ->
    parseTimestamp ts = Num 0 /\
    secondsOf (Some ts) = Num 0 /\
    (forall (autoLoop hasPlayer : bool) (data : PlayerState),
        onStateChange autoLoop (secondsOf (Some ts)) hasPlayer data = []) /\
    (forall (autoLoop hasPlayer : bool) (startSeconds : number)
            (samples : list Sample),
        loopMonitor autoLoop startSeconds (secondsOf (Some ts)) hasPlayer
                    samples = []) /\
    (forall (endSeconds : Z) (samples : list Sample),
        endSeconds <> 0 ->
        loopMonitor true (secondsOf (Some ts)) (Num endSeconds) true samples =
          List.map (fun sample =>
                      if atOrPastEnd (Num endSeconds) sample
                      then [SeekTo (Num 0) true] else []) samples) /\
    (forall (M S : N) (padM padS : nat) (samples : list Sample),
        0 < Z.of_N M * 60 + Z.of_N S <= MAX_SAFE_INTEGER ->
        loopMonitor true (secondsOf (Some ts))
                    (secondsOf (Some (mmss (field padM M) (field padS S))))
                    true samples =
          List.map (fun sample =>
                      if atOrPastEnd (Num (Z.of_N M * 60 + Z.of_N S)) sample
                      then [SeekTo (Num 0) true] else []) samples) /\
    parseTimestamp (str "90") = Num 0 /\
    parseTimestamp (str "") = Num 0 /\
    parseTimestamp (str "1:2:3:4") = Num 0.
Proof.
  intros ts H2 H3.
  assert (Hp : parseTimestamp ts = Num 0).
  { unfold parseTimestamp.
    rewrite <- (length_map Number) in H2, H3.
    destruct (List.map Number (split colon ts)) as [| a [| b [| c [| d l]]]];
      cbn in H2, H3; try reflexivity; contradiction. }
  assert (Hs : secondsOf (Some ts) = Num 0).
  { destruct ts; [reflexivity | exact Hp]. }
  split; [exact Hp |]. split; [exact Hs |]. rewrite Hs.
  split; [| split; [| split; [| split; [| repeat split; reflexivity]]]].
  - intros autoLoop hasPlayer data. destruct data; cbn; try reflexivity.
    rewrite andb_false_r. reflexivity.
  - intros autoLoop hasPlayer startSeconds samples.
    unfold loopMonitor, loopMonitorEnabled. cbn.
    rewrite andb_false_r. reflexivity.
  - intros endSeconds samples Hend. now apply loopMonitor_running.
  - intros M S padM padS samples Hrange.
    rewrite secondsOf_mmss_fields. apply loopMonitor_running. lia.
Qed.

Lemma parseTimestamp_malformed_witness :
  parseTimestamp (str "1:2:3:4") = Num 0 /\
  onStateChange true (secondsOf (Some (str "1:2:3:4"))) true ENDED = [].
Proof.
  assert (H2 : List.length (split colon (str "1:2:3:4")) <> 2%nat)
    by (vm_compute; discriminate).
  assert (H3 : List.length (split colon (str "1:2:3:4")) <> 3%nat)
    by (vm_compute; discriminate).
  pose proof (parseTimestamp_malformed (str "1:2:3:4") H2 H3)
    as [Hp [_ [Hended _]]].
  split; [exact Hp | exact (Hended true true ENDED)].
Defined.

(* ===================================================================== *)
(** * Further properties of the timer *)
(* ===================================================================== *)


Lemma tickTimer_stuck (speech : bool) (s : RecipeState) :
  timerSeconds s < 0 -> tickTimer speech s = (s, []).
Proof.
  intros Hneg. unfold tickTimer.
  destruct (Z.ltb_spec 0 (timerSeconds s)); [lia |].
  destruct (Z.eqb_spec (timerSeconds s) 0); [lia |].
  rewrite !andb_false_r. reflexivity.
Qed.

Lemma tickTimer_outcomes (speech : bool) (s : RecipeState) :
  (tickTimer speech s = (set_timerSeconds (timerSeconds s - 1) s, []) /\
   isTimerRunning s = true /\ 0 < timerSeconds s) \/
  (tickTimer speech s =
     (set_isTimerRunning false s, if speech then [timesUp] else []) /\
   isTimerRunning s = true /\ timerSeconds s = 0) \/
  (tickTimer speech s = (s, []) /\
   (isTimerRunning s = false \/ timerSeconds s < 0)).
Proof.
  destruct (isTimerRunning s) eqn:Hrun.
  - destruct (Z.lt_trichotomy (timerSeconds s) 0) as [Hlt | [Heq | Hgt]].
    + right. right. split; [now apply tickTimer_stuck | right; exact Hlt].
    + right. left. split; [now apply tickTimer_expiring | split; auto].
    + left. split; [now apply tickTimer_counting | split; auto].
  - right. right. split; [now apply tickTimer_idle | left; reflexivity].
Qed.



(** X2. Whatever the store holds and however many ticks arrive, the ticks
    speak at most once, and what they speak is the Cantonese time-is-up
    utterance, whatever the active language; if they spoke, the timer is
    stopped afterwards. Without speech synthesis they speak nothing. *)
Theorem ticks_speak_at_most_once :
  forall (speech : bool) (n : nat) (s : RecipeState),
    let out := snd (CookMode.ticks speech n s) in
    (out = [] \/
     (out = [timesUp] /\ speech = true /\
      isTimerRunning (fst (CookMode.ticks speech n s)) = false)) /\
    lang timesUp = str "zh-HK".
Proof.
  intros speech n s out. split; [| reflexivity]. subst out. revert s.
  induction n as [| n IH]; intros s; [left; reflexivity |].
  cbn [CookMode.ticks].
  destruct (tickTimer_outcomes speech s) as [[Ht _] | [[Ht _] | [Ht _]]];
    rewrite Ht.
  - specialize (IH (set_timerSeconds (timerSeconds s - 1) s)).
    destruct (CookMode.ticks speech n _) as [s2 out2]. exact IH.
  - rewrite ticks_idle by reflexivity. cbn [fst snd].
    destruct speech; [right | left]; repeat split; reflexivity.
  - specialize (IH s). destruct (CookMode.ticks speech n s) as [s2 out2].
    exact IH.
Qed.

(** X3. A timer started with a negative number of seconds never expires:
    every tick leaves the store as it is, so the timer stays running at
    that count and nothing is ever spoken. *)
Theorem negative_timer_never_expires :
  forall (speech : bool) (seconds : Z) (n : nat) (s : RecipeState),
    seconds < 0 ->
    CookMode.ticks speech n (startTimer seconds s) =
      (startTimer seconds s, []) /\
    isTimerRunning (fst (CookMode.ticks speech n (startTimer seconds s))) =
      true.
Proof.
  intros speech seconds n s Hneg.
  assert (Hn : CookMode.ticks speech n (startTimer seconds s) =
               (startTimer seconds s, [])).
  { induction n as [| n IH]; [reflexivity |].
    cbn [CookMode.ticks]. rewrite tickTimer_stuck by exact Hneg.
    rewrite IH. reflexivity. }
  rewrite Hn. split; reflexivity.
Qed.

Lemma negative_timer_never_expires_witness :
  CookMode.ticks true 100 (startTimer (-5) Samples.loaded) =
    (startTimer (-5) Samples.loaded, []).
Proof.
  assert (Hneg : -5 < 0) by lia.
  exact (proj1 (negative_timer_never_expires true (-5) 100 Samples.loaded Hneg)).
Defined.

(** X4. Ticks touch the timer only: after any number of ticks every field
    other than [isTimerRunning] and [timerSeconds] is as before, the
    counter has not grown, and a timer that was stopped is still stopped. *)
Theorem ticks_only_wind_down :
  forall (speech : bool) (n : nat) (s : RecipeState),
    let s' := fst (CookMode.ticks speech n s) in
    sameOutsideTimer s s' /\
    timerSeconds s' <= timerSeconds s /\
    (isTimerRunning s = false -> isTimerRunning s' = false).
Proof.
  intros speech n. induction n as [| n IH]; intros s s'; subst s'.
  - cbn. unfold sameOutsideTimer. repeat split; auto; lia.
  - cbn [CookMode.ticks].
    destruct (tickTimer_outcomes speech s) as [[Ht [Hr Hp]] | [[Ht [Hr Hz]] | [Ht _]]];
      rewrite Ht.
    + specialize (IH (set_timerSeconds (timerSeconds s - 1) s)).
      destruct (CookMode.ticks speech n _) as [s2 out2]. cbn [fst] in *.
      destruct IH as [Hsame [Hle Hoff]]. cbn in Hle.
      split; [exact Hsame | split; [lia | congruence]].
    + rewrite ticks_idle by reflexivity. cbn [fst].
      unfold sameOutsideTimer. cbn. repeat split; auto; lia.
    + specialize (IH s). destruct (CookMode.ticks speech n s) as [s2 out2].
      exact IH.
Qed.

(* ===================================================================== *)
(** * Further properties of navigation and of whole sessions *)
(* ===================================================================== *)

Lemma apply_wellPositioned (speech : bool) (a : Session.Action) (s : RecipeState) :
  Session.wellPositioned s -> Session.wellPositioned (fst (Session.apply speech a s)).
Proof.
  unfold Session.wellPositioned. intros H.
  destruct a; cbn [Session.apply fst]; try exact H.
  - cbn. lia.
  - reflexivity.
  - unfold nextStep. destruct (currentRecipe s) as [r |] eqn:Hr; cbn.
    + destruct (Z.ltb_spec (currentStepIndex s) (stepCount r - 1)); cbn;
        rewrite Hr; lia.
    + rewrite Hr. exact H.
  - unfold prevStep. destruct (Z.ltb_spec 0 (currentStepIndex s)); cbn.
    + destruct (currentRecipe s); lia.
    + exact H.
  - unfold goToStep. destruct (currentRecipe s) as [r |] eqn:Hr; cbn.
    + destruct (Z.leb_spec 0 index); destruct (Z.ltb_spec index (stepCount r));
        cbn; rewrite Hr; lia.
    + rewrite Hr. exact H.
  - destruct (tickTimer_outcomes speech s) as [[Ht _] | [[Ht _] | [Ht _]]];
      rewrite Ht; exact H.
Qed.

Lemma run_wellPositioned (speech : bool) (actions : list Session.Action) :
  forall s,
    Session.wellPositioned s ->
    Session.wellPositioned (fst (Session.run speech actions s)).
Proof.
  induction actions as [| a actions IH]; intros s H; [exact H |].
  cbn [Session.run].
  pose proof (apply_wellPositioned speech a s H) as H1.
  destruct (Session.apply speech a s) as [s1 out1]. cbn [fst] in H1.
  specialize (IH s1 H1).
  destruct (Session.run speech actions s1) as [s2 out2]. exact IH.
Qed.

(** X5. No script of store actions called with integer arguments (any
    whole index for [goToStep], any whole number of seconds for
    [startTimer]) moves the index off the recipe: from a store whose index
    is 0 without a recipe and a valid step index with one, every such
    script ends in such a store. In
    particular, when the recipe it ends with has at least one step, the
    cook screen's lookup [steps[currentStepIndex]] finds a step, and the
    "step k of N" label has [1 <= k <= N]. The initial store qualifies. *)
Theorem session_keeps_index_on_recipe :
  forall (speech : bool) (actions : list Session.Action) (s : RecipeState),
    Session.wellPositioned s ->
    let s' := fst (Session.run speech actions s) in
    Session.wellPositioned s' /\
    forall r : Recipe,
      currentRecipe s' = Some r -> steps r <> [] ->
      1 <= currentStepIndex s' + 1 <= stepCount r /\
      exists st, CookMode.currentStep s' = Some st.
Proof.
  intros speech actions s H s'.
  pose proof (run_wellPositioned speech actions s H) as H'. fold s' in H'.
  split; [exact H' |]. intros r Hr Hne.
  unfold Session.wellPositioned in H'. rewrite Hr in H'.
  assert (HN : 1 <= stepCount r).
  { unfold stepCount. destruct (steps r); [contradiction | cbn; lia]. }
  split; [lia |].
  unfold CookMode.currentStep. rewrite Hr.
  destruct (Z.leb_spec 0 (currentStepIndex s')); [| lia].
  destruct (List.nth_error (steps r) (Z.to_nat (currentStepIndex s'))) eqn:Hn.
  - eexists. reflexivity.
  - apply nth_error_None in Hn. unfold stepCount in *. lia.
Qed.

Lemma session_keeps_index_on_recipe_witness :
  Session.wellPositioned
    (fst (Session.run true
            [Session.ASetRecipe Samples.recipe3; Session.AGoToStep 7;
             Session.ANextStep; Session.ANextStep; Session.ANextStep;
             Session.AStartTimer 2; Session.ATickTimer; Session.APrevStep]
            (initialState hk))).
Proof.
  refine (proj1 (session_keeps_index_on_recipe true _ (initialState hk) _)).
  reflexivity.
Defined.

(** X6. When every timer a script starts is given a whole number of
    seconds that is not negative, the counter never becomes negative. (A
    fractional duration is outside the embedding: the store would count it
    down past zero.) *)
Theorem session_keeps_counter_nonnegative :
  forall (speech : bool) (actions : list Session.Action) (s : RecipeState),
    0 <= timerSeconds s ->
    Session.startsNonNegative actions ->
    0 <= timerSeconds (fst (Session.run speech actions s)).
Proof.
  intros speech actions. induction actions as [| a actions IH];
    intros s Hs Hacts; [exact Hs |].
  inversion Hacts as [| a' l Ha Hrest]; subst.
  cbn [Session.run].
  assert (H1 : 0 <= timerSeconds (fst (Session.apply speech a s))).
  { destruct a; cbn [Session.apply fst]; try exact Hs.
    - unfold nextStep. destruct (currentRecipe s); [| exact Hs].
      destruct (_ <? _); exact Hs.
    - unfold prevStep. destruct (_ <? _); exact Hs.
    - unfold goToStep. destruct (currentRecipe s); [| exact Hs].
      destruct (_ && _); exact Hs.
    - exact Ha.
    - destruct (tickTimer_outcomes speech s) as [[Ht [_ Hp]] | [[Ht _] | [Ht _]]];
        rewrite Ht; cbn; [lia | exact Hs | exact Hs]. }
  destruct (Session.apply speech a s) as [s1 out1]. cbn [fst] in H1.
  specialize (IH s1 H1 Hrest).
  destruct (Session.run speech actions s1) as [s2 out2]. exact IH.
Qed.

Lemma session_keeps_counter_nonnegative_witness :
  0 <= timerSeconds
         (fst (Session.run true
                 [Session.AStartTimer 1; Session.ATickTimer;
                  Session.ATickTimer; Session.ATickTimer]
                 (initialState en))).
Proof.
  apply session_keeps_counter_nonnegative.
  - cbn. lia.
  - repeat constructor. cbn. lia.
Defined.

(** X7. After [clearRecipe] navigation is inert: no script of [nextStep]
    and [prevStep] calls and no [goToStep], whatever its index, changes the
    store. *)
Theorem clearRecipe_makes_navigation_inert :
  forall (s : RecipeState) (calls : list Nav.Call) (index : Z),
    Nav.runAll calls (clearRecipe s) = clearRecipe s /\
    goToStep index (clearRecipe s) = clearRecipe s.
Proof.
  intros s calls index. split; [| reflexivity].
  unfold Nav.runAll. induction calls as [| c calls IH]; [reflexivity |].
  cbn [List.fold_left].
  replace (Nav.run (clearRecipe s) c) with (clearRecipe s)
    by (destruct c; reflexivity).
  exact IH.
Qed.

Lemma set_currentStepIndex_same (s : RecipeState) :
  set_currentStepIndex (currentStepIndex s) s = s.
Proof. destruct s; reflexivity. Qed.

Lemma set_currentStepIndex_twice (a b : Z) (s : RecipeState) :
  set_currentStepIndex a (set_currentStepIndex b s) = set_currentStepIndex a s.
Proof. reflexivity. Qed.

(** X8. Inside a recipe [nextStep] and [prevStep] undo each other: from a
    step that is not the last, [nextStep] then [prevStep] restores the
    store, and from a step that is not the first, [prevStep] then
    [nextStep] does. *)
Theorem next_prev_round_trip :
  forall (r : Recipe) (s : RecipeState),
    Nav.inRange r s ->
    (currentStepIndex s < stepCount r - 1 -> prevStep (nextStep s) = s) /\
    (0 < currentStepIndex s -> nextStep (prevStep s) = s).
Proof.
  intros r s [Hr Hi]. split; intros Hc.
  - unfold nextStep. rewrite Hr.
    destruct (Z.ltb_spec (currentStepIndex s) (stepCount r - 1)); [| lia].
    unfold prevStep. cbn [currentStepIndex set_currentStepIndex].
    destruct (Z.ltb_spec 0 (currentStepIndex s + 1)); [| lia].
    rewrite set_currentStepIndex_twice, Z.add_simpl_r.
    apply set_currentStepIndex_same.
  - unfold prevStep.
    destruct (Z.ltb_spec 0 (currentStepIndex s)); [| lia].
    unfold nextStep. cbn [currentRecipe currentStepIndex set_currentStepIndex].
    rewrite Hr.
    destruct (Z.ltb_spec (currentStepIndex s - 1) (stepCount r - 1)); [| lia].
    rewrite set_currentStepIndex_twice, Z.sub_simpl_r.
    apply set_currentStepIndex_same.
Qed.

Lemma next_prev_round_trip_witness :
  prevStep (nextStep Samples.loaded) = Samples.loaded.
Proof.
  refine (proj1 (next_prev_round_trip Samples.recipe3 Samples.loaded _) _).
  - split; [reflexivity | cbn; lia].
  - cbn. lia.
Defined.

Lemma runAll_repeat_next (r : Recipe) (k : nat) :
  forall s,
    Nav.inRange r s ->
    Nav.runAll (List.repeat Nav.CallNext k) s =
      set_currentStepIndex
        (Z.min (currentStepIndex s + Z.of_nat k) (stepCount r - 1)) s.
Proof.
  unfold Nav.runAll.
  induction k as [| k IH]; intros s [Hr Hi].
  - cbn [List.repeat List.fold_left].
    replace (Z.min (currentStepIndex s + Z.of_nat 0) (stepCount r - 1))
      with (currentStepIndex s) by lia.
    symmetry. apply set_currentStepIndex_same.
  - cbn [List.repeat List.fold_left Nav.run].
    rewrite IH by (apply nextStep_inRange; split; assumption).
    unfold nextStep. rewrite Hr.
    destruct (Z.ltb_spec (currentStepIndex s) (stepCount r - 1)).
    + cbn [currentStepIndex set_currentStepIndex].
      rewrite set_currentStepIndex_twice. f_equal. lia.
    + f_equal. lia.
Qed.

Lemma runAll_repeat_prev (k : nat) :
  forall s,
    0 <= currentStepIndex s ->
    Nav.runAll (List.repeat Nav.CallPrev k) s =
      set_currentStepIndex (Z.max (currentStepIndex s - Z.of_nat k) 0) s.
Proof.
  unfold Nav.runAll.
  induction k as [| k IH]; intros s Hi.
  - cbn [List.repeat List.fold_left].
    replace (Z.max (currentStepIndex s - Z.of_nat 0) 0)
      with (currentStepIndex s) by lia.
    symmetry. apply set_currentStepIndex_same.
  - cbn [List.repeat List.fold_left Nav.run]. unfold prevStep.
    destruct (Z.ltb_spec 0 (currentStepIndex s)).
    + rewrite IH by (cbn; lia).
      cbn [currentStepIndex set_currentStepIndex].
      rewrite set_currentStepIndex_twice. f_equal. lia.
    + rewrite IH by exact Hi. f_equal. lia.
Qed.

(** X9. Repeated navigation saturates at the ends of the recipe: from index
    [i] of a loaded recipe with [N] steps, [k] calls of [nextStep] lead to
    index [min (i + k) (N - 1)] and [k] calls of [prevStep] to
    [max (i - k) 0], every other field being untouched. *)
Theorem repeated_navigation_saturates :
  forall (r : Recipe) (s : RecipeState) (k : nat),
    Nav.inRange r s ->
    Nav.runAll (List.repeat Nav.CallNext k) s =
      set_currentStepIndex
        (Z.min (currentStepIndex s + Z.of_nat k) (stepCount r - 1)) s /\
    Nav.runAll (List.repeat Nav.CallPrev k) s =
      set_currentStepIndex (Z.max (currentStepIndex s - Z.of_nat k) 0) s.
Proof.
  intros r s k Hin. split.
  - now apply runAll_repeat_next.
  - apply runAll_repeat_prev. destruct Hin as [_ Hi]. lia.
Qed.

Lemma repeated_navigation_saturates_witness :
  currentStepIndex (Nav.runAll (List.repeat Nav.CallNext 3) Samples.loaded) = 2.
Proof.
  assert (Hin : Nav.inRange Samples.recipe3 Samples.loaded)
    by (split; [reflexivity | cbn; lia]).
  rewrite (proj1 (repeated_navigation_saturates Samples.recipe3 Samples.loaded
                    3 Hin)).
  reflexivity.
Defined.

(** X10. On a loaded recipe the navigation buttons are disabled exactly
    when pressing them would do nothing: [isFirstStep] holds if and only if
    [prevStep] returns the store as it is, and [isLastStep] if and only if
    [nextStep] does. *)
Theorem buttons_disabled_iff_noop :
  forall (r : Recipe) (s : RecipeState),
    Nav.inRange r s ->
    (CookView.isFirstStep s = true <-> prevStep s = s) /\
    (CookView.isLastStep r s = true <-> nextStep s = s).
Proof.
  intros r s [Hr Hi]. unfold CookView.isFirstStep, CookView.isLastStep.
  rewrite !Z.eqb_eq. split; split.
  - intros H0. apply (proj2 (prevStep_cases s)). lia.
  - intros Hp. destruct (Z.eq_dec (currentStepIndex s) 0) as [| Hne];
      [assumption | exfalso].
    assert (Hpos : 0 < currentStepIndex s) by lia.
    rewrite (proj1 (prevStep_cases s) Hpos) in Hp.
    apply (f_equal currentStepIndex) in Hp. cbn in Hp. lia.
  - intros HN. apply (proj2 (nextStep_cases r s Hr)). lia.
  - intros Hn.
    destruct (Z.eq_dec (currentStepIndex s) (stepCount r - 1)) as [| Hne];
      [assumption | exfalso].
    assert (Hlt : currentStepIndex s < stepCount r - 1) by lia.
    rewrite (proj1 (nextStep_cases r s Hr) Hlt) in Hn.
    apply (f_equal currentStepIndex) in Hn. cbn in Hn. lia.
Qed.

Lemma buttons_disabled_iff_noop_witness :
  CookView.isFirstStep Samples.loaded = true /\
  CookView.isLastStep Samples.recipe3 Samples.loaded = false.
Proof.
  assert (Hin : Nav.inRange Samples.recipe3 Samples.loaded)
    by (split; [reflexivity | cbn; lia]).
  pose proof (buttons_disabled_iff_noop Samples.recipe3 Samples.loaded Hin)
    as [Hfirst Hlast].
  split.
  - apply Hfirst. reflexivity.
  - apply not_true_is_false. intros E. apply Hlast in E.
    apply (f_equal currentStepIndex) in E. discriminate E.
Defined.

(** X11. Clicking the dot of step [i] of the loaded recipe makes the cook
    screen show that step: afterwards the index is [i] and the lookup
    [steps[currentStepIndex]] returns the [i]-th step. *)
Theorem dot_click_shows_step :
  forall (r : Recipe) (s : RecipeState) (i : nat) (st : RecipeStep),
    currentRecipe s = Some r ->
    List.nth_error (steps r) i = Some st ->
    currentStepIndex (CookView.onDotClick i s) = Z.of_nat i /\
    CookMode.currentStep (CookView.onDotClick i s) = Some st.
Proof.
  intros r s i st Hr Hst.
  assert (Hlt : (i < List.length (steps r))%nat).
  { apply nth_error_Some. congruence. }
  unfold CookView.onDotClick. rewrite Hr.
  destruct (Nat.ltb_spec i (List.length (steps r))); [| lia].
  unfold goToStep. rewrite Hr.
  destruct (Z.leb_spec 0 (Z.of_nat i)); [| lia].
  destruct (Z.ltb_spec (Z.of_nat i) (stepCount r));
    [| unfold stepCount in *; lia].
  cbn [andb]. split; [reflexivity |].
  unfold CookMode.currentStep.
  cbn [currentRecipe currentStepIndex set_currentStepIndex]. rewrite Hr.
  destruct (Z.leb_spec 0 (Z.of_nat i)); [| lia].
  rewrite Nat2Z.id. exact Hst.
Qed.

Lemma dot_click_shows_step_witness :
  CookMode.currentStep (CookView.onDotClick 1 Samples.busy) =
    Some (Samples.plainStep 2 "0:20" "1:05").
Proof.
  exact (proj2 (dot_click_shows_step Samples.recipe3 Samples.busy 1 _
                  eq_refl eq_refl)).
Defined.

(** X12. What is persisted, the pair of [expertMode] and [language], is
    changed by the two settings actions only: a script without
    [toggleExpertMode] and [setLanguage] leaves it as it was. *)
Theorem only_settings_change_persisted :
  forall (speech : bool) (actions : list Session.Action) (s : RecipeState),
    List.forallb (fun a => negb (Session.isSettingsAction a)) actions = true ->
    Session.partialize (fst (Session.run speech actions s)) =
      Session.partialize s.
Proof.
  intros speech actions. induction actions as [| a actions IH];
    intros s Hall; [reflexivity |].
  cbn [List.forallb] in Hall. apply andb_true_iff in Hall as [Ha Hrest].
  cbn [Session.run].
  assert (H1 : Session.partialize (fst (Session.apply speech a s)) =
               Session.partialize s).
  { destruct a; cbn [Session.apply fst]; try reflexivity; try discriminate Ha.
    - unfold nextStep. destruct (currentRecipe s); [| reflexivity].
      destruct (_ <? _); reflexivity.
    - unfold prevStep. destruct (_ <? _); reflexivity.
    - unfold goToStep. destruct (currentRecipe s); [| reflexivity].
      destruct (_ && _); reflexivity.
    - destruct (tickTimer_outcomes speech s) as [[Ht _] | [[Ht _] | [Ht _]]];
        rewrite Ht; reflexivity. }
  destruct (Session.apply speech a s) as [s1 out1]. cbn [fst] in H1.
  specialize (IH s1 Hrest).
  destruct (Session.run speech actions s1) as [s2 out2]. cbn [fst] in *.
  congruence.
Qed.

Lemma only_settings_change_persisted_witness :
  Session.partialize
    (fst (Session.run true
            [Session.ASetRecipe Samples.recipe3; Session.ANextStep;
             Session.AStartTimer 3; Session.ATickTimer]
            (initialState hk))) = (false, hk).
Proof.
  rewrite only_settings_change_persisted; reflexivity.
Defined.

(** X13. For a step that has a timer but no duration (none, or zero) the
    idle timer card reads 00:00, while its start button starts the timer
    at 60 seconds, so that the card then reads 01:00. *)
Theorem timer_card_default_mismatch :
  forall (s : RecipeState) (st : RecipeStep),
    CookMode.currentStep s = Some st ->
    has_timer (timer_config st) = true ->
    isTimerRunning s = false ->
    (duration_seconds (timer_config st) = None \/
     duration_seconds (timer_config st) = Some 0) ->
    CookView.timerDisplay st s = str "00:00" /\
    timerSeconds (CookMode.onStartTimerClick s) = 60 /\
    CookView.timerDisplay st (CookMode.onStartTimerClick s) = str "01:00".
Proof.
  intros s st Hst Htimer Hidle Hdur.
  assert (Hd0 : CookMode.orDefault (duration_seconds (timer_config st)) 0 = 0)
    by (destruct Hdur as [-> | ->]; reflexivity).
  assert (Hd60 : CookMode.orDefault (duration_seconds (timer_config st)) 60 = 60)
    by (destruct Hdur as [-> | ->]; reflexivity).
  unfold CookView.timerDisplay, CookMode.onStartTimerClick.
  rewrite Hst, Htimer, Hidle, Hd0, Hd60. cbn [andb negb].
  repeat split; reflexivity.
Qed.

Lemma timer_card_default_mismatch_witness :
  CookView.timerDisplay (Samples.timedStep 3 "1:05" "1:02:03" None)
    (CookMode.onStartTimerClick (goToStep 2 Samples.loaded)) = str "01:00".
Proof.
  refine (proj2 (proj2 (timer_card_default_mismatch (goToStep 2 Samples.loaded)
                          (Samples.timedStep 3 "1:05" "1:02:03" None)
                          eq_refl eq_refl eq_refl _))).
  left. reflexivity.
Defined.

(* ===================================================================== *)
(** * Further properties of voice control *)
(* ===================================================================== *)

Lemma nextStep_only_index (s : RecipeState) :
  set_currentStepIndex (currentStepIndex (nextStep s)) s = nextStep s.
Proof.
  unfold nextStep. destruct (currentRecipe s);
    [destruct (_ <? _) |]; try apply set_currentStepIndex_same; reflexivity.
Qed.

Lemma prevStep_only_index (s : RecipeState) :
  set_currentStepIndex (currentStepIndex (prevStep s)) s = prevStep s.
Proof.
  unfold prevStep. destruct (_ <? _);
    try apply set_currentStepIndex_same; reflexivity.
Qed.

(** X14. A final transcript heard on the cook screen, once the timeout it
    schedules has run, has changed nothing in the store but the step index
    and [isListening], which is then false whether or not a phrase was
    recognised; the index stays on the loaded recipe; at most one
    confirmation is spoken; and a transcript in which no phrase is
    recognised only closes the microphone state and speaks nothing. *)
Theorem voice_changes_only_index_and_listening :
  forall (speech : bool) (transcript : jsstring) (s : RecipeState),
    let res :=
      VoiceControl.finalResultSettled speech CookMode.voiceOnCommand
                                      transcript s in
    fst res =
      setListening false (set_currentStepIndex (currentStepIndex (fst res)) s) /\
    isListening (fst res) = false /\
    (forall r : Recipe, Nav.inRange r s -> Nav.inRange r (fst res)) /\
    (List.length (snd res) <= 1)%nat /\
    (matchCommand transcript = None -> res = (setListening false s, [])).
Proof.
  intros speech transcript s res. subst res.
  unfold VoiceControl.finalResultSettled, VoiceControl.onFinalResult,
    VoiceControl.resultTimeout.
  destruct (matchCommand transcript) as [c |].
  - unfold VoiceControl.handleCommand, CookMode.voiceOnCommand. cbn [fst snd].
    split; [| split; [reflexivity | split; [| split]]].
    + cbn [currentStepIndex setListening set_isListening]. f_equal.
      symmetry. destruct c; try apply set_currentStepIndex_same.
      * apply nextStep_only_index.
      * apply prevStep_only_index.
    + intros r Hin.
      assert (Hin' : Nav.inRange r
                       match c with
                       | CmdNext => nextStep s
                       | CmdPrev => prevStep s
                       | _ => s
                       end).
      { destruct c; try exact Hin.
        - now apply nextStep_inRange.
        - now apply prevStep_inRange. }
      exact Hin'.
    + unfold speakFeedback. destruct speech; cbn; lia.
    + discriminate.
  - cbn [fst snd]. split.
    + cbn [currentStepIndex setListening set_isListening].
      rewrite set_currentStepIndex_same. reflexivity.
    + split; [reflexivity |]. split; [intros r Hin; exact Hin |].
      split; [cbn; lia | reflexivity].
Qed.

Lemma white_not_upper (c : N) : isWhiteSpace c = true -> lowerUnit c = c.
Proof.
  intros Hw. unfold lowerUnit.
  destruct ((65 <=? c) && (c <=? 90))%N eqn:Hup; [| reflexivity].
  apply andb_true_iff in Hup as [H1 H2].
  apply N.leb_le in H1. apply N.leb_le in H2.
  assert (Hnw : isWhiteSpace c = false).
  { unfold isWhiteSpace.
    repeat match goal with
           | |- (_ || _)%bool = false => apply orb_false_iff; split
           end;
      try (apply N.eqb_neq; lia);
      apply andb_false_iff;
      (left; apply N.leb_gt; lia) || (right; apply N.leb_gt; lia). }
  congruence.
Qed.

Lemma toLowerCase_white (ws : jsstring) : allWhite ws -> toLowerCase ws = ws.
Proof.
  induction 1 as [| c ws Hc Hws IH]; cbn; [reflexivity |].
  rewrite (white_not_upper c Hc). unfold toLowerCase in IH. rewrite IH.
  reflexivity.
Qed.

Lemma trimStart_white_app (ws x : jsstring) :
  allWhite ws -> trimStart (ws ++ x) = trimStart x.
Proof.
  induction 1 as [| c ws Hc Hws IH]; cbn; [reflexivity |].
  rewrite Hc. exact IH.
Qed.

Lemma trimEnd_white_app (x ws : jsstring) :
  allWhite ws -> trimEnd (x ++ ws) = trimEnd x.
Proof.
  intros Hws. unfold trimEnd. rewrite rev_app_distr.
  rewrite trimStart_white_app by (apply Forall_rev; exact Hws).
  reflexivity.
Qed.

Lemma trim_white_around (ws1 x ws2 : jsstring) :
  allWhite ws1 -> allWhite ws2 -> trim (ws1 ++ x ++ ws2) = trim x.
Proof.
  intros H1 H2. unfold trim. rewrite (trimStart_white_app ws1 _ H1).
  induction x as [| c x IH]; cbn [app].
  - rewrite <- (app_nil_r ws2). rewrite (trimStart_white_app ws2 [] H2).
    reflexivity.
  - cbn [trimStart]. destruct (isWhiteSpace c); [exact IH |].
    change (c :: x ++ ws2) with ((c :: x) ++ ws2).
    apply trimEnd_white_app. exact H2.
Qed.

(** X15. White space around a transcript never matters: for every phrase
    table, a transcript with any white space and line breaks before and
    after it is matched like the transcript itself. *)
Theorem matchCommand_ignores_outer_space :
  forall (table : list (Command * list jsstring))
         (ws1 transcript ws2 : jsstring),
    allWhite ws1 -> allWhite ws2 ->
    matchCommandIn table (ws1 ++ transcript ++ ws2) =
      matchCommandIn table transcript.
Proof.
  intros table ws1 transcript ws2 H1 H2.
  unfold matchCommandIn, normalize, toLowerCase.
  rewrite !map_app. fold (toLowerCase ws1) (toLowerCase ws2).
  rewrite (toLowerCase_white ws1 H1), (toLowerCase_white ws2 H2).
  rewrite (trim_white_around ws1 _ ws2 H1 H2). reflexivity.
Qed.

Lemma matchCommand_ignores_outer_space_witness :
  matchCommand ([32; 9]%N ++ str "Go Back" ++ [10; 12288]%N) = Some CmdPrev.
Proof.
  unfold matchCommand.
  rewrite matchCommand_ignores_outer_space.
  - reflexivity.
  - repeat constructor.
  - repeat constructor.
Defined.

(** X16. No phrase of the shipped table is shadowed by an earlier entry:
    every phrase, spoken alone, is recognised as the command it is listed
    under. The confirmation texts of both languages are phrases of their
    own command as well. *)
Theorem table_phrases_reach_their_command :
  (forall (c : Command) (patterns : list jsstring) (p : jsstring),
      In (c, patterns) COMMAND_PATTERNS -> In p patterns ->
      matchCommand p = Some c) /\
  (forall (l : Language) (c : Command), matchCommand (MESSAGES l c) = Some c).
Proof.
  split.
  - assert (Hall : List.Forall
                     (fun entry =>
                        List.Forall
                          (fun p => matchCommand p = Some (fst entry))
                          (snd entry))
                     COMMAND_PATTERNS).
    { repeat constructor. }
    intros c patterns p Hentry Hp.
    rewrite Forall_forall in Hall. specialize (Hall _ Hentry). cbn in Hall.
    rewrite Forall_forall in Hall. exact (Hall p Hp).
  - intros l c. destruct l, c; reflexivity.
Qed.

Lemma table_phrases_reach_their_command_witness :
  matchCommand [38283; 22987; 35336; 26178]%N = Some CmdTimer.
Proof.
  apply (proj1 table_phrases_reach_their_command CmdTimer
           [ [35336; 26178]%N; [35745; 26102]%N;
             [38283; 22987; 35336; 26178]%N; str "timer"; str "start timer" ]).
  - cbn. tauto.
  - cbn. tauto.
Defined.

(* ===================================================================== *)
(** * Further properties of clock text and timestamps *)
(* ===================================================================== *)

Lemma toString_nonneg (z : Z) :
  0 <= z -> Clock.toString z = decimal (Z.to_N z).
Proof.
  intros Hz. unfold Clock.toString.
  destruct (Z.ltb_spec z 0); [lia | reflexivity].
Qed.

Lemma padStart_decimal (n : N) :
  Clock.padStart 2 48%N (decimal n) = field (2 - List.length (decimal n)) n.
Proof. reflexivity. Qed.

Lemma length_decimal_digit (n : N) :
  (n < 10)%N -> List.length (decimal n) = 1%nat.
Proof.
  intros Hn. rewrite decimal_digit by exact Hn. reflexivity.
Qed.

Lemma length_decimal_step (n : N) :
  (10 <= n)%N ->
  List.length (decimal n) = S (List.length (decimal (n / 10))).
Proof.
  intros Hn. rewrite (decimal_unfold n).
  destruct (N.ltb_spec n 10); [lia |].
  rewrite length_app. cbn. lia.
Qed.

Lemma length_decimal_two (n : N) :
  (10 <= n < 100)%N -> List.length (decimal n) = 2%nat.
Proof.
  intros [Hlo Hhi]. rewrite length_decimal_step by exact Hlo.
  rewrite length_decimal_digit; [reflexivity |].
  apply N.Div0.div_lt_upper_bound. lia.
Qed.

Lemma length_decimal_pos (n : N) : (1 <= List.length (decimal n))%nat.
Proof.
  pose proof (decimal_nonempty n). destruct (decimal n); [contradiction |].
  cbn. lia.
Qed.

Lemma length_field_two (n : N) :
  (n < 100)%N -> List.length (field (2 - List.length (decimal n)) n) = 2%nat.
Proof.
  intros Hn. unfold field. rewrite length_app, repeat_length.
  destruct (N.lt_ge_cases n 10) as [Hs | Hb].
  - rewrite length_decimal_digit by exact Hs. reflexivity.
  - rewrite length_decimal_two by lia. reflexivity.
Qed.

Lemma formatTime_fields (n : Z) :
  0 <= n ->
  Clock.formatTime n =
    mmss (field (2 - List.length (decimal (Z.to_N (n / 60)))) (Z.to_N (n / 60)))
         (field (2 - List.length (decimal (Z.to_N (n mod 60))))
                (Z.to_N (n mod 60))).
Proof.
  intros Hn. unfold Clock.formatTime, mmss.
  rewrite Z.rem_mod_nonneg by lia.
  rewrite !toString_nonneg;
    [| apply Z.mod_pos_bound; lia | apply Z.div_pos; lia].
  rewrite !padStart_decimal. reflexivity.
Qed.

(** X17. The clock text of the cook screen reads back as the same number
    of seconds: for every whole count of seconds from 0 to
    [MAX_SAFE_INTEGER], [parseTimestamp (formatTime n)] is [n]. *)
Theorem formatTime_parses_back :
  forall n : Z,
    0 <= n <= MAX_SAFE_INTEGER ->
    parseTimestamp (Clock.formatTime n) = Num n.
Proof.
  intros n [Hn _]. rewrite formatTime_fields by exact Hn.
  rewrite parse_mmss_fields. f_equal.
  pose proof (Z.mod_pos_bound n 60 ltac:(lia)) as Hm.
  pose proof (Z.div_pos n 60 Hn ltac:(lia)) as Hd.
  rewrite !Z2N.id by lia.
  pose proof (Z.div_mod n 60 ltac:(lia)). lia.
Qed.

Lemma formatTime_parses_back_witness :
  parseTimestamp (Clock.formatTime 3725) = Num 3725.
Proof.
  apply formatTime_parses_back. split; [lia | vm_compute; discriminate].
Defined.

(** X18. For a whole count of seconds from 0 to [MAX_SAFE_INTEGER] the
    clock text has a minutes part and a seconds part, both made of digits:
    the seconds part always has exactly two digits and the minutes part at
    least two. Minutes are not folded into hours: below 100 minutes the
    text is five code units long, and 6000 seconds read "100:00". *)
Theorem formatTime_shape :
  forall n : Z,
    0 <= n <= MAX_SAFE_INTEGER ->
    exists m s : jsstring,
      Clock.formatTime n = mmss m s /\
      allDigits m /\ allDigits s /\
      List.length s = 2%nat /\
      (2 <= List.length m)%nat /\
      (n < 6000 -> List.length (Clock.formatTime n) = 5%nat) /\
      Clock.formatTime 6000 = str "100:00".
Proof.
  intros n [Hn _].
  pose proof (Z.mod_pos_bound n 60 ltac:(lia)) as Hm.
  pose proof (Z.div_pos n 60 Hn ltac:(lia)) as Hd.
  eexists. eexists. split; [apply formatTime_fields; exact Hn |].
  split; [apply field_allDigits |]. split; [apply field_allDigits |].
  split; [apply length_field_two; lia |].
  split.
  - unfold field. rewrite length_app, repeat_length.
    pose proof (length_decimal_pos (Z.to_N (n / 60))). lia.
  - split; [| reflexivity]. intros Hlt.
    rewrite formatTime_fields by exact Hn. unfold mmss.
    rewrite !length_app. cbn [List.length].
    assert (Hq : n / 60 < 100) by (apply Z.div_lt_upper_bound; lia).
    rewrite !length_field_two by lia. reflexivity.
Qed.

Lemma formatTime_shape_witness :
  exists m s : jsstring,
    Clock.formatTime 75 = mmss m s /\ List.length s = 2%nat.
Proof.
  assert (H75 : 0 <= 75 <= MAX_SAFE_INTEGER)
    by (split; [lia | vm_compute; discriminate]).
  destruct (formatTime_shape 75 H75) as [m [s [Heq [_ [_ [Hlen _]]]]]].
  exists m, s. split; assumption.
Defined.


(* ===================================================================== *)
(** * Further properties of the player component *)
(* ===================================================================== *)

(** X20. The loop monitor only ever seeks to the start of the window: every
    call it issues, for any props and any samples, is
    [seekTo(startSeconds, true)]; it never calls [playVideo], and a firing
    issues at most one call. *)
Theorem loop_monitor_only_seeks_to_start :
  forall (autoLoop hasPlayer : bool) (startSeconds endSeconds : number)
         (samples : list Sample) (cmds : list PlayerCmd),
    In cmds (loopMonitor autoLoop startSeconds endSeconds hasPlayer samples) ->
    cmds = [] \/ cmds = [SeekTo startSeconds true].
Proof.
  intros autoLoop hasPlayer startSeconds endSeconds samples cmds.
  unfold loopMonitor.
  destruct (loopMonitorEnabled autoLoop endSeconds hasPlayer); [| intros []].
  rewrite in_map_iff. intros [sample [<- _]]. rewrite pollTick_cases.
  destruct (atOrPastEnd endSeconds sample); [right | left]; reflexivity.
Qed.

Lemma loop_monitor_only_seeks_to_start_witness :
  [SeekTo (Num 10) true] = [] \/
  [SeekTo (Num 10) true] = [SeekTo (Num 10) true].
Proof.
  apply (loop_monitor_only_seeks_to_start true true (Num 10) (Num 20)
           Samples.reports).
  cbn. tauto.
Defined.

(** X21. The monitor does not require a well-formed window. With an end
    that is not zero and not after the start, a player that is at the start
    after each seek is sought again on every firing. With a negative end
    the [end] entry is left out of [playerVars], yet the monitor is
    scheduled and seeks on every sample at a position that is not
    negative. *)
Theorem degenerate_window_seeks_every_poll :
  forall (startSeconds endSeconds : Z),
    endSeconds <> 0 ->
    (endSeconds <= startSeconds ->
     forall n : nat,
       loopMonitor true (Num startSeconds) (Num endSeconds) true
                   (List.repeat (Position (Num startSeconds)) n) =
         List.repeat [SeekTo (Num startSeconds) true] n) /\
    (endSeconds < 0 ->
     PlayerSetup.varEnd
       (PlayerSetup.playerVars (Num startSeconds) (Num endSeconds)) = None /\
     forall t : Z,
       0 <= t ->
       loopMonitor true (Num startSeconds) (Num endSeconds) true
                   [Position (Num t)] =
         [[SeekTo (Num startSeconds) true]]).
Proof.
  intros startSeconds endSeconds Hnz.
  assert (Hon : loopMonitorEnabled true (Num endSeconds) true = true).
  { unfold loopMonitorEnabled. cbn.
    destruct (Z.eqb_spec endSeconds 0); [contradiction | reflexivity]. }
  unfold loopMonitor. rewrite Hon. split.
  - intros Hle n. induction n as [| n IH]; [reflexivity |].
    cbn [List.repeat List.map]. rewrite IH. f_equal.
    cbn. destruct (Z.leb_spec endSeconds startSeconds); [reflexivity | lia].
  - intros Hneg. split.
    + unfold PlayerSetup.playerVars. cbn.
      destruct (Z.ltb_spec 0 endSeconds); [lia | reflexivity].
    + intros t Ht. cbn.
      destruct (Z.leb_spec endSeconds t); [reflexivity | lia].
Qed.

Lemma degenerate_window_seeks_every_poll_witness :
  loopMonitor true (secondsOf (Some (str "0:30"))) (secondsOf (Some (str "0:30")))
              true (List.repeat (Position (Num 30)) 3) =
    List.repeat [SeekTo (Num 30) true] 3.
Proof.
  assert (Hnz : 30 <> 0) by discriminate.
  assert (Hle : 30 <= 30) by lia.
  exact (proj1 (degenerate_window_seeks_every_poll 30 30 Hnz) Hle 3%nat).
Defined.

Lemma unitsEqb_spec (a : jsstring) :
  forall b, RecipeClient.unitsEqb a b = true <-> a = b.
Proof.
  induction a as [| x a IH]; intros [| y b]; cbn;
    try (split; [discriminate | discriminate]); [tauto |].
  rewrite andb_true_iff, N.eqb_eq, IH. split.
  - intros [-> ->]. reflexivity.
  - intros Heq. injection Heq as -> ->. split; reflexivity.
Qed.

(** X22. Opening a recipe page: when the store already holds the recipe
    with the requested id, nothing is fetched and the session (step, timer,
    microphone) is kept as it is; when the requests fail, the store is left
    as it was, old recipe included, and the message is shown; otherwise the
    fetched document is installed with [setRecipe] and the index is 0. *)
Theorem fetchRecipe_outcomes :
  forall (videoId : jsstring) (outcome : RecipeClient.FetchOutcome)
         (s : RecipeState),
    let res := RecipeClient.fetchRecipe videoId outcome s in
    (forall r, currentRecipe s = Some r -> youtube_id r = videoId ->
               res = (s, None)) /\
    (forall message, outcome = RecipeClient.Failed message -> fst res = s) /\
    (forall data,
        outcome = RecipeClient.Loaded data ->
        (forall r, currentRecipe s = Some r -> youtube_id r <> videoId) ->
        res = (setRecipe data s, None) /\ currentStepIndex (fst res) = 0).
Proof.
  intros videoId outcome s res. subst res. unfold RecipeClient.fetchRecipe.
  split; [| split].
  - intros r Hr Hid. rewrite Hr.
    rewrite (proj2 (unitsEqb_spec (youtube_id r) videoId) Hid). reflexivity.
  - intros message ->. destruct (currentRecipe s) as [r |]; [| reflexivity].
    destruct (RecipeClient.unitsEqb (youtube_id r) videoId); reflexivity.
  - intros data -> Hdiff. destruct (currentRecipe s) as [r |] eqn:Hr.
    + destruct (RecipeClient.unitsEqb (youtube_id r) videoId) eqn:E.
      * apply unitsEqb_spec in E. exfalso. exact (Hdiff r eq_refl E).
      * split; reflexivity.
    + split; reflexivity.
Qed.

Lemma fetchRecipe_outcomes_witness :
  RecipeClient.fetchRecipe (str "abc123")
    (RecipeClient.Failed (str "Recipe not found")) Samples.busy =
    (Samples.busy, None).
Proof.
  exact (proj1 (fetchRecipe_outcomes (str "abc123")
                  (RecipeClient.Failed (str "Recipe not found")) Samples.busy)
               Samples.recipe3 eq_refl eq_refl).
Defined.

(* ===================================================================== *)
(** * Properties of the prep check list *)
(* ===================================================================== *)

Lemma lookup_assign (m : PrepSteps.Completed) (i : nat) (v : bool) :
  forall j,
    PrepSteps.lookup (PrepSteps.assign m i v) j =
      if Nat.eqb i j then Some v else PrepSteps.lookup m j.
Proof.
  induction m as [| [k w] m IH]; intros j; cbn.
  - reflexivity.
  - destruct (Nat.eqb_spec k i) as [-> | Hki]; cbn.
    + destruct (Nat.eqb_spec i j); reflexivity.
    + rewrite IH. destruct (Nat.eqb_spec k j) as [-> | Hkj];
        [| reflexivity].
      destruct (Nat.eqb_spec i j); [congruence | reflexivity].
Qed.

Lemma isDone_toggle (m : PrepSteps.Completed) (i j : nat) :
  PrepSteps.isDone (PrepSteps.toggleTask i m) j =
    if Nat.eqb i j then negb (PrepSteps.isDone m i) else PrepSteps.isDone m j.
Proof.
  unfold PrepSteps.toggleTask, PrepSteps.isDone at 1.
  rewrite lookup_assign. destruct (Nat.eqb i j); reflexivity.
Qed.

Lemma length_assign (m : PrepSteps.Completed) (i : nat) (v : bool) :
  List.length (PrepSteps.assign m i v) =
    match PrepSteps.lookup m i with
    | Some _ => List.length m
    | None => S (List.length m)
    end.
Proof.
  induction m as [| [k w] m IH]; cbn; [reflexivity |].
  destruct (Nat.eqb k i); cbn; [reflexivity |].
  rewrite IH. destruct (PrepSteps.lookup m i); reflexivity.
Qed.

Lemma filter_none {A : Type} (f : A -> bool) (l : list A) :
  (forall x, f x = false) -> List.filter f l = [].
Proof.
  intros Hf. induction l as [| x l IH]; cbn; [reflexivity |].
  rewrite Hf. exact IH.
Qed.

(** X23. Ticking a prep task flips that task and no other: after
    [toggleTask i] task [i] is done exactly when it was not, every other
    task is as before, and ticking the same task twice puts every task
    back. *)
Theorem toggleTask_flips_one_task :
  forall (m : PrepSteps.Completed) (i j : nat),
    PrepSteps.isDone (PrepSteps.toggleTask i m) i =
      negb (PrepSteps.isDone m i) /\
    (j <> i ->
     PrepSteps.isDone (PrepSteps.toggleTask i m) j = PrepSteps.isDone m j) /\
    PrepSteps.isDone (PrepSteps.toggleTask i (PrepSteps.toggleTask i m)) j =
      PrepSteps.isDone m j.
Proof.
  intros m i j. split; [| split].
  - rewrite isDone_toggle, Nat.eqb_refl. reflexivity.
  - intros Hne. rewrite isDone_toggle.
    destruct (Nat.eqb_spec i j); [congruence | reflexivity].
  - rewrite !isDone_toggle, Nat.eqb_refl.
    destruct (Nat.eqb_spec i j) as [-> | _]; [| reflexivity].
    apply negb_involutive.
Qed.

(** X24. The first number of the footer's "ready" label counts the tasks
    that were ever ticked, not the ones that are ticked: no toggle lowers
    it, and after ticking and unticking one task of a fresh list it reads 1
    although no task is checked and the list is not all done. *)
Theorem ready_label_counts_touched_tasks :
  (forall (m : PrepSteps.Completed) (i : nat),
      (PrepSteps.readyCount m <=
       PrepSteps.readyCount (PrepSteps.toggleTask i m))%nat) /\
  (forall tasks i : nat,
      (i < tasks)%nat ->
      let m := PrepSteps.toggleTask i (PrepSteps.toggleTask i []) in
      PrepSteps.readyCount m = 1%nat /\
      PrepSteps.checkedCount tasks m = 0%nat /\
      PrepSteps.allDone tasks m = false).
Proof.
  split.
  - intros m i. unfold PrepSteps.readyCount, PrepSteps.toggleTask.
    rewrite length_assign. destruct (PrepSteps.lookup m i); lia.
  - intros tasks i Hi m.
    assert (Hm : m = [(i, false)]).
    { subst m. change (PrepSteps.toggleTask i []) with [(i, true)].
      unfold PrepSteps.toggleTask, PrepSteps.isDone.
      cbn [PrepSteps.lookup PrepSteps.assign].
      rewrite Nat.eqb_refl. reflexivity. }
    rewrite Hm.
    assert (Hnone : forall j, PrepSteps.isDone [(i, false)] j = false).
    { intros j. unfold PrepSteps.isDone. cbn.
      destruct (Nat.eqb i j); reflexivity. }
    split; [reflexivity |]. split.
    + unfold PrepSteps.checkedCount.
      rewrite filter_none; [reflexivity | exact Hnone].
    + unfold PrepSteps.allDone. destruct tasks as [| tasks]; [lia |].
      cbn [List.seq List.forallb]. rewrite Hnone. reflexivity.
Qed.

Lemma ready_label_counts_touched_tasks_witness :
  PrepSteps.readyCount (PrepSteps.toggleTask 1 (PrepSteps.toggleTask 1 [])) =
    1%nat /\
  PrepSteps.checkedCount 3
    (PrepSteps.toggleTask 1 (PrepSteps.toggleTask 1 [])) = 0%nat.
Proof.
  assert (Hi : (1 < 3)%nat) by lia.
  destruct (proj2 ready_label_counts_touched_tasks 3%nat 1%nat Hi)
    as [Hready [Hchecked _]].
  split; assumption.
Defined.

(* ===================================================================== *)
(** * Properties of the video id reader *)
(* ===================================================================== *)

Lemma takeId_sound (s id : jsstring) :
  Home.takeId s = Some id ->
  List.length id = 11%nat /\ List.forallb Home.isIdChar id = true.
Proof.
  unfold Home.takeId.
  destruct (Nat.eqb_spec (List.length (List.firstn 11 s)) 11) as [Hlen |];
    [| discriminate].
  destruct (List.forallb Home.isIdChar (List.firstn 11 s)) eqn:Hall;
    [| discriminate].
  cbn. intros Heq. injection Heq as <-. split; assumption.
Qed.

Lemma takeId_app (id rest : jsstring) :
  List.length id = 11%nat -> List.forallb Home.isIdChar id = true ->
  Home.takeId (id ++ rest) = Some id.
Proof.
  intros Hlen Hall. unfold Home.takeId.
  assert (Hfirst : List.firstn 11 (id ++ rest) = id).
  { rewrite <- Hlen. rewrite firstn_app, Nat.sub_diag, firstn_all.
    cbn. apply app_nil_r. }
  rewrite Hfirst, Hlen, Hall. reflexivity.
Qed.

Lemma matchHere_sound (alternatives : list jsstring) (s id : jsstring) :
  Home.matchHere alternatives s = Some id ->
  List.length id = 11%nat /\ List.forallb Home.isIdChar id = true.
Proof.
  induction alternatives as [| lit rest IH]; cbn; [discriminate |].
  destruct (startsWith s lit).
  - destruct (Home.takeId (List.skipn (List.length lit) s)) as [id' |] eqn:Ht.
    + intros Heq. injection Heq as <-. exact (takeId_sound _ _ Ht).
    + exact IH.
  - exact IH.
Qed.

Lemma searchUrl_sound (s : jsstring) :
  forall id,
    Home.searchUrl s = Some id ->
    List.length id = 11%nat /\ List.forallb Home.isIdChar id = true.
Proof.
  induction s as [| c s IH]; intros id; cbn [Home.searchUrl].
  - destruct (Home.matchHere Home.prefixes []) as [id' |] eqn:Hm;
      [| discriminate].
    intros Heq. injection Heq as <-. exact (matchHere_sound _ _ _ Hm).
  - destruct (Home.matchHere Home.prefixes (c :: s)) as [id' |] eqn:Hm.
    + intros Heq. injection Heq as <-. exact (matchHere_sound _ _ _ Hm).
    + apply IH.
Qed.

Lemma idChars_start_no_prefix (s lit : jsstring) :
  List.forallb Home.isIdChar s = true ->
  List.forallb Home.isIdChar lit = false ->
  startsWith s lit = false.
Proof.
  intros Hs Hlit. destruct (startsWith s lit) eqn:E; [| reflexivity].
  apply startsWith_spec in E as [b ->].
  rewrite forallb_app, Hlit in Hs. discriminate Hs.
Qed.

Lemma matchHere_idChars (s : jsstring) :
  List.forallb Home.isIdChar s = true ->
  Home.matchHere Home.prefixes s = None.
Proof.
  intros Hs. unfold Home.prefixes. cbn [Home.matchHere].
  rewrite !(idChars_start_no_prefix s _ Hs) by reflexivity. reflexivity.
Qed.

Lemma searchUrl_idChars (s : jsstring) :
  List.forallb Home.isIdChar s = true -> Home.searchUrl s = None.
Proof.
  induction s as [| c s IH]; intros Hs; cbn [Home.searchUrl].
  - reflexivity.
  - rewrite (matchHere_idChars _ Hs). apply IH.
    cbn in Hs. apply andb_true_iff in Hs as [_ Hs]. exact Hs.
Qed.

(** X25. Whatever text is entered, a video id that is read out of it has
    exactly 11 code units, all of them letters, digits, [_] or [-]. Text
    made of such characters only is accepted exactly when it is 11 long,
    and is then returned as it is; the empty text is refused. *)
Theorem extractVideoId_yields_wellformed_ids :
  (forall inputUrl id : jsstring,
      Home.extractVideoId inputUrl = Some id ->
      List.length id = 11%nat /\ List.forallb Home.isIdChar id = true) /\
  (forall s : jsstring,
      List.forallb Home.isIdChar s = true ->
      Home.extractVideoId s =
        if Nat.eqb (List.length s) 11 then Some s else None) /\
  Home.extractVideoId [] = None.
Proof.
  split; [| split; [| reflexivity]].
  - intros inputUrl id. unfold Home.extractVideoId.
    destruct (Home.searchUrl inputUrl) as [id' |] eqn:Hs.
    + intros Heq. injection Heq as <-. exact (searchUrl_sound _ _ Hs).
    + unfold Home.matchBare.
      destruct (Nat.eqb_spec (List.length inputUrl) 11); [| discriminate].
      destruct (List.forallb Home.isIdChar inputUrl) eqn:Hall;
        [| discriminate].
      cbn. intros Heq. injection Heq as <-. split; assumption.
  - intros s Hs. unfold Home.extractVideoId, Home.matchBare.
    rewrite (searchUrl_idChars s Hs), Hs.
    destruct (Nat.eqb (List.length s) 11); reflexivity.
Qed.

Lemma extractVideoId_yields_wellformed_ids_witness :
  List.length (str "GNGGWBWkRbE") = 11%nat /\
  List.forallb Home.isIdChar (str "GNGGWBWkRbE") = true.
Proof.
  apply (proj1 extractVideoId_yields_wellformed_ids
           (str "https://youtu.be/GNGGWBWkRbE?t=42")).
  reflexivity.
Defined.

Lemma searchUrl_found (before s : jsstring) :
  (exists id, Home.matchHere Home.prefixes s = Some id) ->
  exists id, Home.searchUrl (before ++ s) = Some id.
Proof.
  intros [id Hid]. induction before as [| c before IH]; cbn [app].
  - exists id. destruct s; cbn [Home.searchUrl]; rewrite Hid; reflexivity.
  - cbn [Home.searchUrl].
    destruct (Home.matchHere Home.prefixes (c :: before ++ s)) as [id0 |].
    + eexists. reflexivity.
    + exact IH.
Qed.

Lemma startsWith_head_mismatch (a c : N) (p s : jsstring) :
  a <> c -> startsWith (c :: s) (a :: p) = false.
Proof.
  intros Hne. cbn [startsWith].
  destruct (N.eqb_spec a c); [contradiction | reflexivity].
Qed.

Lemma startsWith_mismatch (a : jsstring) :
  forall (p x : jsstring),
    startsWith a (List.firstn (List.length a) p) = false ->
    startsWith (a ++ x) p = false.
Proof.
  induction a as [| c a IH]; intros p x H.
  - cbn in H. discriminate H.
  - destruct p as [| q p]; [cbn in H; discriminate H |].
    cbn [List.length List.firstn startsWith app] in *.
    destruct (q =? c)%N; [| reflexivity].
    cbn [andb] in *. apply IH. exact H.
Qed.

Lemma searchUrl_skip (pre s : jsstring) :
  List.Forall (fun c => c <> 121%N) pre ->
  Home.searchUrl (pre ++ s) = Home.searchUrl s.
Proof.
  induction 1 as [| c pre Hc Hpre IH]; cbn [app]; [reflexivity |].
  cbn [Home.searchUrl].
  assert (Hm : Home.matchHere Home.prefixes (c :: pre ++ s) = None).
  { unfold Home.prefixes.
    change (str "youtube.com/watch?v=") with (121%N :: str "outube.com/watch?v=").
    change (str "youtu.be/") with (121%N :: str "outu.be/").
    change (str "youtube.com/embed/") with (121%N :: str "outube.com/embed/").
    cbn [Home.matchHere].
    rewrite !startsWith_head_mismatch by congruence. reflexivity. }
  rewrite Hm. exact IH.
Qed.

Lemma matchHere_at_prefix (lit id rest : jsstring) :
  In lit Home.prefixes ->
  List.length id = 11%nat -> List.forallb Home.isIdChar id = true ->
  Home.matchHere Home.prefixes (lit ++ id ++ rest) = Some id.
Proof.
  intros Hin Hlen Hall.
  assert (Hsw : startsWith (lit ++ id ++ rest) lit = true)
    by (apply startsWith_spec; eexists; reflexivity).
  assert (Hskip : List.skipn (List.length lit) (lit ++ id ++ rest) =
                  id ++ rest).
  { rewrite skipn_app, Nat.sub_diag, skipn_all. reflexivity. }
  unfold Home.prefixes in *. cbn [Home.matchHere].
  destruct Hin as [<- | [<- | [<- | []]]].
  - rewrite Hsw, Hskip, (takeId_app id rest Hlen Hall). reflexivity.
  - rewrite (startsWith_mismatch (str "youtu.be/")
               (str "youtube.com/watch?v=")) by reflexivity.
    rewrite Hsw, Hskip, (takeId_app id rest Hlen Hall). reflexivity.
  - rewrite (startsWith_mismatch (str "youtube.com/embed/")
               (str "youtube.com/watch?v=")) by reflexivity.
    rewrite (startsWith_mismatch (str "youtube.com/embed/")
               (str "youtu.be/")) by reflexivity.
    rewrite Hsw, Hskip, (takeId_app id rest Hlen Hall). reflexivity.
Qed.

Lemma searchUrl_at_prefix (lit id rest : jsstring) :
  In lit Home.prefixes ->
  List.length id = 11%nat -> List.forallb Home.isIdChar id = true ->
  Home.searchUrl (lit ++ id ++ rest) = Some id.
Proof.
  intros Hin Hlen Hall.
  pose proof (matchHere_at_prefix lit id rest Hin Hlen Hall) as Hhere.
  destruct (lit ++ id ++ rest); cbn [Home.searchUrl]; rewrite Hhere;
    reflexivity.
Qed.

(** X26. The usual link forms give the id that follows the marker, and
    whatever comes after its 11 characters is ignored, further id
    characters included: this holds for [https://www.youtube.com/watch?v=],
    [https://youtu.be/] and [https://www.youtube.com/embed/] links. More
    generally, any text that contains one of the three markers followed by
    11 id characters yields some id. *)
Theorem extractVideoId_reads_links :
  forall id rest : jsstring,
    List.length id = 11%nat ->
    List.forallb Home.isIdChar id = true ->
    Home.extractVideoId (str "https://www.youtube.com/watch?v=" ++ id ++ rest)
      = Some id /\
    Home.extractVideoId (str "https://youtu.be/" ++ id ++ rest) = Some id /\
    Home.extractVideoId (str "https://www.youtube.com/embed/" ++ id ++ rest)
      = Some id /\
    forall before lit : jsstring,
      In lit Home.prefixes ->
      exists id',
        Home.extractVideoId (before ++ lit ++ id ++ rest) = Some id'.
Proof.
  intros id rest Hlen Hall.
  assert (Hwww : List.Forall (fun c => c <> 121%N) (str "https://www."))
    by (repeat constructor; discriminate).
  assert (Hhttps : List.Forall (fun c => c <> 121%N) (str "https://"))
    by (repeat constructor; discriminate).
  unfold Home.extractVideoId. split; [| split; [| split]].
  - change (str "https://www.youtube.com/watch?v=" ++ id ++ rest)
      with (str "https://www." ++ str "youtube.com/watch?v=" ++ id ++ rest).
    rewrite (searchUrl_skip _ _ Hwww).
    rewrite searchUrl_at_prefix; [reflexivity | cbn; tauto | exact Hlen | exact Hall].
  - change (str "https://youtu.be/" ++ id ++ rest)
      with (str "https://" ++ str "youtu.be/" ++ id ++ rest).
    rewrite (searchUrl_skip _ _ Hhttps).
    rewrite searchUrl_at_prefix; [reflexivity | cbn; tauto | exact Hlen | exact Hall].
  - change (str "https://www.youtube.com/embed/" ++ id ++ rest)
      with (str "https://www." ++ str "youtube.com/embed/" ++ id ++ rest).
    rewrite (searchUrl_skip _ _ Hwww).
    rewrite searchUrl_at_prefix; [reflexivity | cbn; tauto | exact Hlen | exact Hall].
  - intros before lit Hin.
    destruct (searchUrl_found before (lit ++ id ++ rest)) as [id' Hid'].
    + exists id. exact (matchHere_at_prefix lit id rest Hin Hlen Hall).
    + rewrite Hid'. exists id'. reflexivity.
Qed.

Lemma extractVideoId_reads_links_witness :
  Home.extractVideoId
    (str "https://youtu.be/" ++ str "GNGGWBWkRbE" ++ str "EXTRA?t=42") =
    Some (str "GNGGWBWkRbE").
Proof.
  exact (proj1 (proj2 (extractVideoId_reads_links (str "GNGGWBWkRbE")
                         (str "EXTRA?t=42") eq_refl eq_refl))).
Defined.
